(** * LeatherPatcher: a shallow embedding of the pedal-to-stepper controller

    The sketch [LeatherPatcher.ino] targets an Arduino Nano (ATmega328P):
    [int] is 16 bits wide, [long] and [unsigned long] are 32 bits wide, and
    [float] and [double] are both IEEE binary32.

    The controller is one function, [loop], run forever on the global
    variables of the sketch.  Here the globals are the fields of [State],
    one iteration is [loop : State -> Input -> State], and the two
    Arduino libraries the sketch drives (AccelStepper, RunningAverage) and
    the floating-point arithmetic are interfaces, so that every statement
    about the control flow holds whatever these collaborators do. *)

From Stdlib Require Import ZArith List Bool Lia Reals Lra.
From Stdlib Require Import Floats.SpecFloat.
Import ListNotations.

Local Open Scope Z_scope.

(** ** Machine integers of the ATmega328P *)

(** A value stored in a 16-bit [int]. *)
Definition int16 (z : Z) : Z := (z + 32768) mod 65536 - 32768.

(** A value stored in a 32-bit [long]. *)
Definition int32 (z : Z) : Z := (z + 2147483648) mod 4294967296 - 2147483648.

(** A value converted to [unsigned long]. *)
Definition ulong (z : Z) : Z := z mod 4294967296.

(** [a - b] on [unsigned long]: the difference wraps around. *)
Definition usub (a b : Z) : Z := ulong (a - b).

(** ** Floating point, as an interface

    [of_int] is the conversion [(float)i], [to_int] the cast [(int)x],
    [to_long] the cast [(long)x], [flt] the comparison [x < y] and [flog]
    the [log] of the C library. *)
Class CFloat (F : Type) : Type := {
  of_int : Z -> F;
  fadd : F -> F -> F;
  fsub : F -> F -> F;
  fmul : F -> F -> F;
  fdiv : F -> F -> F;
  flt : F -> F -> bool;
  flog : F -> F;
  to_int : F -> Z;
  to_long : F -> Z
}.

(** ** The collaborators *)

(** The part of AccelStepper the sketch calls.  The object is constructed
    on [STEP_PIN] and [DIR_PIN] and drives these two pins itself, from
    inside [run()]: what it does to them is part of its own state [S], and
    no statement here is about the level of either pin. *)
Class AccelStepper (F S : Type) : Type := {
  setMaxSpeed : F -> S -> S;
  setAcceleration : F -> S -> S;
  moveTo : Z -> S -> S;
  currentPosition : S -> Z;
  run : S -> S;
  stop : S -> S
}.

(** The part of RunningAverage the sketch calls. *)
Class RunningAverage (F A : Type) : Type := {
  clear : A -> A;
  addValue : F -> A -> A;
  getAverage : A -> F
}.

(** ** Pins *)

Inductive Pin : Type := STEP_PIN | DIR_PIN | ENABLE_PIN | LED_PIN.

Inductive Level : Type := LOW | HIGH.

Definition Pin_eqb (p q : Pin) : bool :=
  match p, q with
  | STEP_PIN, STEP_PIN | DIR_PIN, DIR_PIN
  | ENABLE_PIN, ENABLE_PIN | LED_PIN, LED_PIN => true
  | _, _ => false
  end.

(** [digitalWrite(pin, b)] with a [bool] argument. *)
Definition level_of_bool (b : bool) : Level := if b then HIGH else LOW.

(** The level a pin is driven to after the writes [w] (newest first); an
    output that was never written is low.  This is the level of a pin that
    only the sketch writes, as the ENABLE pin and the LED pin are. *)
Fixpoint pinLevel (p : Pin) (w : list (Pin * Level)) : Level :=
  match w with
  | [] => LOW
  | (q, v) :: w' => if Pin_eqb p q then v else pinLevel p w'
  end.

(** ** USER CONFIGURATION: the [#define]s of the sketch *)

Record Config (F : Type) : Type := {
  REVERSE_DIRECTION : bool;
  MAX_SPEED_SPS : Z;
  MAX_ACCEL_SPS2 : Z;
  ANALOG_MIN_COUNTS : Z;
  ANALOG_MAX_COUNTS : Z;
  ANALOG_REVERSED : bool;
  ANALOG_DEADBAND_COUNTS : Z;
  HOLD_BAND_COUNTS : Z;
  ANALOG_FILTER_SAMPLES : Z;
  CONTROL_HZ : Z;
  INPUT_CURVE : Z;
  LOG_CURVE_K : F;
  ARM_DELAY_MS : Z;
  DISABLE_DELAY_MS : Z
}.

Arguments REVERSE_DIRECTION {F} _.
Arguments MAX_SPEED_SPS {F} _.
Arguments MAX_ACCEL_SPS2 {F} _.
Arguments ANALOG_MIN_COUNTS {F} _.
Arguments ANALOG_MAX_COUNTS {F} _.
Arguments ANALOG_REVERSED {F} _.
Arguments ANALOG_DEADBAND_COUNTS {F} _.
Arguments HOLD_BAND_COUNTS {F} _.
Arguments ANALOG_FILTER_SAMPLES {F} _.
Arguments CONTROL_HZ {F} _.
Arguments INPUT_CURVE {F} _.
Arguments LOG_CURVE_K {F} _.
Arguments ARM_DELAY_MS {F} _.
Arguments DISABLE_DELAY_MS {F} _.

(** The values the sketch ships with. *)
Definition default_config {F : Type} `{CFloat F} : Config F := {|
  REVERSE_DIRECTION := false;
  MAX_SPEED_SPS := 4000;
  MAX_ACCEL_SPS2 := 800;
  ANALOG_MIN_COUNTS := 10;
  ANALOG_MAX_COUNTS := 1010;
  ANALOG_REVERSED := false;
  ANALOG_DEADBAND_COUNTS := 20;
  HOLD_BAND_COUNTS := 60;
  ANALOG_FILTER_SAMPLES := 8;
  CONTROL_HZ := 100;
  INPUT_CURVE := 2;
  LOG_CURVE_K := of_int 20;
  ARM_DELAY_MS := 500;
  DISABLE_DELAY_MS := 100
|}.

(** The three pedal zones of the control update. *)
Inductive Zone : Type := STOP | HOLD | THROTTLE.

(** What one iteration of [loop] reads: [millis()] and
    [analogRead(ANALOG_PIN)]. *)
Record Input : Type := { millis : Z; analogRead : Z }.

(** ** The sketch *)

Section Sketch.

Context {F S A : Type}.
Context `{FL : CFloat F} `{ST : AccelStepper F S} `{RA : RunningAverage F A}.
Variable cfg : Config F.

(** The globals, the [static] accumulator of [loop], the two library
    objects and the history of the [digitalWrite] calls of the sketch
    itself (newest first). *)
Record State : Type := {
  armed : bool;
  armStart : Z;
  disableStart : Z;
  lastControlUpdate : Z;
  lastLED : Z;
  ledState : bool;
  virtualPos : F;
  stepper : S;
  filter : A;
  writes : list (Pin * Level)
}.

Definition set_armed (b : bool) (s : State) : State :=
  {| armed := b; armStart := armStart s; disableStart := disableStart s;
     lastControlUpdate := lastControlUpdate s; lastLED := lastLED s;
     ledState := ledState s; virtualPos := virtualPos s;
     stepper := stepper s; filter := filter s; writes := writes s |}.

Definition set_armStart (t : Z) (s : State) : State :=
  {| armed := armed s; armStart := t; disableStart := disableStart s;
     lastControlUpdate := lastControlUpdate s; lastLED := lastLED s;
     ledState := ledState s; virtualPos := virtualPos s;
     stepper := stepper s; filter := filter s; writes := writes s |}.

Definition set_disableStart (t : Z) (s : State) : State :=
  {| armed := armed s; armStart := armStart s; disableStart := t;
     lastControlUpdate := lastControlUpdate s; lastLED := lastLED s;
     ledState := ledState s; virtualPos := virtualPos s;
     stepper := stepper s; filter := filter s; writes := writes s |}.

Definition set_lastControlUpdate (t : Z) (s : State) : State :=
  {| armed := armed s; armStart := armStart s; disableStart := disableStart s;
     lastControlUpdate := t; lastLED := lastLED s;
     ledState := ledState s; virtualPos := virtualPos s;
     stepper := stepper s; filter := filter s; writes := writes s |}.

Definition set_lastLED (t : Z) (s : State) : State :=
  {| armed := armed s; armStart := armStart s; disableStart := disableStart s;
     lastControlUpdate := lastControlUpdate s; lastLED := t;
     ledState := ledState s; virtualPos := virtualPos s;
     stepper := stepper s; filter := filter s; writes := writes s |}.

Definition set_ledState (b : bool) (s : State) : State :=
  {| armed := armed s; armStart := armStart s; disableStart := disableStart s;
     lastControlUpdate := lastControlUpdate s; lastLED := lastLED s;
     ledState := b; virtualPos := virtualPos s;
     stepper := stepper s; filter := filter s; writes := writes s |}.

Definition set_virtualPos (x : F) (s : State) : State :=
  {| armed := armed s; armStart := armStart s; disableStart := disableStart s;
     lastControlUpdate := lastControlUpdate s; lastLED := lastLED s;
     ledState := ledState s; virtualPos := x;
     stepper := stepper s; filter := filter s; writes := writes s |}.

Definition set_stepper (m : S) (s : State) : State :=
  {| armed := armed s; armStart := armStart s; disableStart := disableStart s;
     lastControlUpdate := lastControlUpdate s; lastLED := lastLED s;
     ledState := ledState s; virtualPos := virtualPos s;
     stepper := m; filter := filter s; writes := writes s |}.

Definition set_filter (a : A) (s : State) : State :=
  {| armed := armed s; armStart := armStart s; disableStart := disableStart s;
     lastControlUpdate := lastControlUpdate s; lastLED := lastLED s;
     ledState := ledState s; virtualPos := virtualPos s;
     stepper := stepper s; filter := a; writes := writes s |}.

Definition digitalWrite (p : Pin) (v : Level) (s : State) : State :=
  {| armed := armed s; armStart := armStart s; disableStart := disableStart s;
     lastControlUpdate := lastControlUpdate s; lastLED := lastLED s;
     ledState := ledState s; virtualPos := virtualPos s;
     stepper := stepper s; filter := filter s;
     writes := (p, v) :: writes s |}.

(** The level the driver's ENABLE input is held at (active low). *)
Definition enablePin (s : State) : Level := pinLevel ENABLE_PIN (writes s).

(** The level of the status LED. *)
Definition ledPin (s : State) : Level := pinLevel LED_PIN (writes s).

(** [const unsigned long controlInterval = 1000UL / CONTROL_HZ;] *)
Definition controlInterval : Z := 1000 / ulong (CONTROL_HZ cfg).

(** [max((int)ARM_DELAY_MS, 250)], converted to [unsigned long] by the
    comparison it stands in. *)
Definition armHold : Z := ulong (Z.max (int16 (ARM_DELAY_MS cfg)) 250).

(** [float normalizeADC(int raw)] *)
Definition normalizeADC (raw : Z) : F :=
  let raw := if raw <? ANALOG_MIN_COUNTS cfg then ANALOG_MIN_COUNTS cfg else raw in
  let raw := if ANALOG_MAX_COUNTS cfg <? raw then ANALOG_MAX_COUNTS cfg else raw in
  let u := fdiv (of_int (int16 (raw - ANALOG_MIN_COUNTS cfg)))
                (of_int (int16 (ANALOG_MAX_COUNTS cfg - ANALOG_MIN_COUNTS cfg))) in
  let u := if ANALOG_REVERSED cfg then fsub (of_int 1) u else u in
  let u := if flt u (of_int 0) then of_int 0 else u in
  let u := if flt (of_int 1) u then of_int 1 else u in
  u.

(** [float applyCurve(float u)] *)
Definition applyCurve (u : F) : F :=
  if INPUT_CURVE cfg =? 1 then fmul u u
  else if INPUT_CURVE cfg =? 2 then
    let k := LOG_CURVE_K cfg in
    fdiv (flog (fadd (of_int 1) (fmul k u))) (flog (fadd (of_int 1) k))
  else u.

(** The toggle shared by the two blinking patterns of [updateLED]. *)
Definition blink (now period : Z) (s : State) : State :=
  if period <=? usub now (lastLED s) then
    let s := set_ledState (negb (ledState s)) s in
    let s := digitalWrite LED_PIN (level_of_bool (ledState s)) s in
    set_lastLED now s
  else s.

(** [void updateLED(unsigned long now, bool running, bool inHold,
    bool inDeadband)] *)
Definition updateLED (now : Z) (running inHold inDeadband : bool)
    (s : State) : State :=
  if negb (armed s) then blink now 500 s
  else if running then digitalWrite LED_PIN HIGH s
  else if inHold then blink now 250 s
  else if inDeadband then
    let t := now mod 1000 in
    if (t <? 100) || ((200 <=? t) && (t <? 300))
    then digitalWrite LED_PIN HIGH s
    else digitalWrite LED_PIN LOW s
  else digitalWrite LED_PIN LOW s.

(** [void setup()], given the two library objects as constructed and the
    samples its [for] loop reads. *)
Definition setup (stepper0 : S) (filter0 : A) (samples : list Z) : State :=
  {| armed := false; armStart := 0; disableStart := 0;
     lastControlUpdate := 0; lastLED := 0; ledState := false;
     virtualPos := of_int 0;
     stepper := setAcceleration (of_int (MAX_ACCEL_SPS2 cfg))
                  (setMaxSpeed (of_int (MAX_SPEED_SPS cfg)) stepper0);
     filter := fold_left (fun a v => addValue (of_int v) a)
                 (firstn (Z.to_nat (ANALOG_FILTER_SAMPLES cfg)) samples)
                 (clear filter0);
     writes := [(ENABLE_PIN, HIGH);
                (DIR_PIN, if REVERSE_DIRECTION cfg then HIGH else LOW)] |}.

(** The branch of [loop] taken while [!armed] (lines 233-247). *)
Definition arming (now rawADC : Z) (s : State) : State :=
  let s :=
    if rawADC <=? ANALOG_DEADBAND_COUNTS cfg then
      if armStart s =? 0 then set_armStart now s
      else if armHold <=? usub now (armStart s) then set_armed true s
      else s
    else set_armStart 0 s in
  let s := set_stepper (stop (stepper s)) s in
  let s := digitalWrite ENABLE_PIN HIGH s in
  updateLED now false false false s.

(** The three-way [if] of the control update, on [scaledADC]. *)
Definition classify (scaledADC : Z) : Zone :=
  if scaledADC <=? ANALOG_DEADBAND_COUNTS cfg then STOP
  else if scaledADC <=? HOLD_BAND_COUNTS cfg then HOLD
  else THROTTLE.

(** [int scaledADC = (int)(u * 1023);] *)
Definition scaledADC (u : F) : Z := to_int (fmul u (of_int 1023)).

(** The body of the control update (lines 255-292); it returns the locals
    [running], [inHold] and [inDeadband] along with the state. *)
Definition control (now filteredADC : Z) (s : State)
    : State * (bool * bool * bool) :=
  let s := set_lastControlUpdate now s in
  let u := normalizeADC filteredADC in
  match classify (scaledADC u) with
  | STOP =>
      let s :=
        if disableStart s =? 0 then set_disableStart now s
        else if ulong (DISABLE_DELAY_MS cfg) <=? usub now (disableStart s) then
          let s := digitalWrite ENABLE_PIN HIGH s in
          set_stepper (stop (stepper s)) s
        else s in
      (s, (false, false, true))
  | HOLD =>
      let s := set_disableStart 0 s in
      let s := digitalWrite ENABLE_PIN LOW s in
      let s := set_stepper (moveTo (currentPosition (stepper s)) (stepper s)) s in
      (s, (false, true, false))
  | THROTTLE =>
      let s := set_disableStart 0 s in
      let s := digitalWrite ENABLE_PIN LOW s in
      let curved := applyCurve u in
      let targetSpeed := fmul curved (of_int (MAX_SPEED_SPS cfg)) in
      let s := set_stepper (setMaxSpeed (of_int (MAX_SPEED_SPS cfg)) (stepper s)) s in
      let s := set_stepper (setAcceleration (of_int (MAX_ACCEL_SPS2 cfg)) (stepper s)) s in
      let s := set_virtualPos
                 (fadd (virtualPos s) (fdiv targetSpeed (of_int (CONTROL_HZ cfg)))) s in
      let s := set_stepper (moveTo (to_long (virtualPos s)) (stepper s)) s in
      (s, (true, false, false))
  end.

(** [void loop()] *)
Definition loop (s : State) (i : Input) : State :=
  let now := millis i in
  let rawADC := analogRead i in
  let s := set_filter (addValue (of_int rawADC) (filter s)) s in
  let filteredADC := to_int (getAverage (filter s)) in
  if negb (armed s) then arming now rawADC s
  else
    let '(s, (running, inHold, inDeadband)) :=
      if controlInterval <=? usub now (lastControlUpdate s)
      then control now filteredADC s
      else (s, (false, false, false)) in
    let s := set_stepper (run (stepper s)) s in
    updateLED now running inHold inDeadband s.

(** The state after the iterations [l], oldest first. *)
Definition iterate (s : State) (l : list Input) : State := fold_left loop l s.

(** *** What an iteration decides, read off the expressions of [loop] *)

(** [now - lastControlUpdate >= controlInterval]: the iteration is a
    control tick. *)
Definition due (s : State) (i : Input) : bool :=
  controlInterval <=? usub (millis i) (lastControlUpdate s).

(** [(int)filter.getAverage()] after [filter.addValue(rawADC)]. *)
Definition filteredADC (s : State) (i : Input) : Z :=
  to_int (getAverage (addValue (of_int (analogRead i)) (filter s))).

(** [normalizeADC(filteredADC)] *)
Definition pedal (s : State) (i : Input) : F := normalizeADC (filteredADC s i).

(** The zone a control tick on [i] puts the pedal in. *)
Definition zone (s : State) (i : Input) : Zone :=
  classify (scaledADC (pedal s i)).

(** The disable-hold timer is running and has reached
    [DISABLE_DELAY_MS]. *)
Definition elapsed (s : State) (i : Input) : bool :=
  negb (disableStart s =? 0)
  && (ulong (DISABLE_DELAY_MS cfg) <=? usub (millis i) (disableStart s)).

(** [rawADC <= ANALOG_DEADBAND_COUNTS] *)
Definition released (i : Input) : bool :=
  analogRead i <=? ANALOG_DEADBAND_COUNTS cfg.

(** A property of every iteration of a run, stated on the state the
    iteration starts from. *)
Fixpoint along (P : State -> Input -> Prop) (s : State) (l : list Input)
    : Prop :=
  match l with
  | [] => True
  | i :: l' => P s i /\ along P (loop s i) l'
  end.


(** An armed control tick in the THROTTLE zone. *)
Definition throttle_tick (s : State) (i : Input) : Prop :=
  armed s = true /\ due s i = true /\ zone s i = THROTTLE.

(** After the samples [l] a released sample opens a run: none came before
    it, or the one just before it is not released. *)
Definition opens_run (l : list Input) : Prop :=
  l = [] \/ exists l0 h, l = l0 ++ [h] /\ released h = false.

(** The pedal has been held released: the samples [a], [mid], [b] are one
    stretch of released samples, [a] opens the run, and from [a] to [b] at
    least [d] milliseconds have passed. *)
Definition held_released (d : Z) (l : list Input) : Prop :=
  exists l1 a mid b l2,
    l = l1 ++ a :: mid ++ b :: l2
    /\ opens_run l1
    /\ released a = true
    /\ Forall (fun i => released i = true) mid
    /\ released b = true
    /\ d <= usub (millis b) (millis a).

(** [s'] differs from [s] in the LED only: its blink timer, its toggle
    and at most one write, to the LED pin. *)
Definition led_only (s s' : State) : Prop :=
  armed s' = armed s /\ armStart s' = armStart s
  /\ disableStart s' = disableStart s
  /\ lastControlUpdate s' = lastControlUpdate s
  /\ virtualPos s' = virtualPos s /\ stepper s' = stepper s
  /\ filter s' = filter s
  /\ (writes s' = writes s \/ exists v, writes s' = (LED_PIN, v) :: writes s).

(** One step of a square blink with half-period [period], from [s] to
    [s']: once [period] ms have passed since the last toggle the LED is
    toggled and the blink timer restarted, and else nothing changes. *)
Definition toggled (period now : Z) (s s' : State) : Prop :=
  if period <=? usub now (lastLED s)
  then ledState s' = negb (ledState s) /\ lastLED s' = now
       /\ ledPin s' = level_of_bool (negb (ledState s))
  else ledState s' = ledState s /\ lastLED s' = lastLED s
       /\ ledPin s' = ledPin s.

(** The double pulse of [updateLED], on [t = now % 1000]. *)
Definition doublePulse (t : Z) : Level :=
  level_of_bool ((t <? 100) || ((200 <=? t) && (t <? 300))).

(** The state a control tick starts its zone logic from. *)
Definition ticked (s : State) (i : Input) : State :=
  set_lastControlUpdate (millis i)
    (set_filter (addValue (of_int (analogRead i)) (filter s)) s).



(** The states the sketch can be in: after [setup] and any number of
    iterations. *)
Inductive reachable : State -> Prop :=
| reachable_setup : forall stepper0 filter0 samples,
    reachable (setup stepper0 filter0 samples)
| reachable_loop : forall s i, reachable s -> reachable (loop s i).

End Sketch.

Arguments State F S A : clear implicits.

(** ** Arithmetic instances *)

(** *** Exact arithmetic

    [float] read as a real number: no rounding, and [log] is the natural
    logarithm.  The sketch computes in binary32, so this reading is an
    idealisation: it serves to run the control flow on the bench, where
    the statements are about timers, pins and zones.  What the arithmetic
    of the sketch yields where rounding, a division by zero or a NaN come
    in is stated on [binary32] below. *)

(** [(int)x] and [(long)x] drop the fractional part. *)
Definition Rtrunc (x : R) : Z :=
  if Rle_dec 0 x then Int_part x else - Int_part (- x).

#[export] Instance exact : CFloat R := {|
  of_int := IZR;
  fadd := Rplus;
  fsub := Rminus;
  fmul := Rmult;
  fdiv := Rdiv;
  flt := fun x y => if Rlt_dec x y then true else false;
  flog := ln;
  to_int := fun x => int16 (Rtrunc x);
  to_long := fun x => int32 (Rtrunc x)
|}.

(** *** IEEE binary32, the [float] of the ATmega328P

    The arithmetic is the specification of the Standard Library at
    precision 24 and maximal exponent 128; the C library's [log] is a
    parameter.  The casts [(int)x] and [(long)x] of a value outside the
    range of the integer type are undefined in C; they wrap here, and the
    statements on [(long)virtualPos] are made within the range of
    [long]. *)

Definition prec32 : Z := 24.
Definition emax32 : Z := 128.

(** The integer part of a binary32 value; the cast of a NaN or of an
    infinity is undefined in C and read as 0 here. *)
Definition SFtrunc (x : spec_float) : Z :=
  match x with
  | S754_finite sg m e =>
      let a := if 0 <=? e then Z.shiftl (Zpos m) e else Z.shiftr (Zpos m) (- e) in
      if sg then - a else a
  | _ => 0
  end.

Definition binary32 (libm_log : spec_float -> spec_float) : CFloat spec_float := {|
  of_int := fun z => binary_normalize prec32 emax32 z 0 false;
  fadd := SFadd prec32 emax32;
  fsub := SFsub prec32 emax32;
  fmul := SFmul prec32 emax32;
  fdiv := SFdiv prec32 emax32;
  flt := SFltb;
  flog := libm_log;
  to_int := fun x => int16 (SFtrunc x);
  to_long := fun x => int32 (SFtrunc x)
|}.

(** A binary32 value that is a number: a zero or a finite value. *)
Definition is_number (x : spec_float) : bool :=
  match x with
  | S754_zero _ | S754_finite _ _ _ => true
  | _ => false
  end.

Definition is_zero (x : spec_float) : bool :=
  match x with
  | S754_zero _ => true
  | _ => false
  end.

(** [(float)z] is a number, and a zero only for [z = 0]. *)
Definition exact_int (z : Z) : bool :=
  let x := binary_normalize prec32 emax32 z 0 false in
  is_number x && Bool.eqb (is_zero x) (z =? 0).

(** The differences of two counts of the 10-bit converter. *)
Definition count_spans : list Z :=
  map (fun k => Z.of_nat k - 1023) (seq 0 2047).

(** The two clamps that end [normalizeADC], in binary32. *)
Definition clamp01 (u : spec_float) : spec_float :=
  let u := if SFltb u (S754_zero false) then S754_zero false else u in
  if SFltb (S754_finite false 8388608 (-23)) u
  then S754_finite false 8388608 (-23) else u.

(** ** Stand-ins for the two libraries, to run the sketch on *)

(** A stepper that takes at most one step per [run] towards its target and
    stops where it stands. *)
Record Motor : Type := { position : Z; target : Z }.

#[export] Instance motor {F : Type} : AccelStepper F Motor := {|
  setMaxSpeed := fun _ m => m;
  setAcceleration := fun _ m => m;
  moveTo := fun t m => {| position := position m; target := t |};
  currentPosition := position;
  run := fun m =>
    {| position := position m + Z.sgn (target m - position m);
       target := target m |};
  stop := fun m => {| position := position m; target := position m |}
|}.

(** A running average over the newest [size] samples: the arithmetic mean
    of what the window holds. *)
Record Window (F : Type) : Type := { size : nat; samples : list F }.

Arguments size {F} _.
Arguments samples {F} _.

#[export] Instance window {F : Type} `{CFloat F} : RunningAverage F (Window F) := {|
  clear := fun w => {| size := size w; samples := [] |};
  addValue := fun v w =>
    {| size := size w; samples := firstn (size w) (v :: samples w) |};
  getAverage := fun w =>
    fdiv (fold_right fadd (of_int 0) (samples w))
         (of_int (Z.of_nat (length (samples w))))
|}.

(** ** A bench to run the sketch on

    The shipped configuration in exact arithmetic, with the two stand-ins
    for the libraries. *)

Definition bench : Config R := default_config.

Definition motor0 : Motor := {| position := 0; target := 0 |}.

Definition window0 : Window R := {| size := 8; samples := [] |}.

(** Power-up with the pedal at rest. *)
Definition power_up : State R Motor (Window R) :=
  setup bench motor0 window0 (repeat 0 8).

(** An iteration at time [t] with the pedal at rest, and one with the pedal
    on the floor. *)
Definition rest (t : Z) : Input := {| millis := t; analogRead := 0 |}.
Definition floored (t : Z) : Input := {| millis := t; analogRead := 1023 |}.

(** The pedal was at rest from 300 ms to 800 ms after power-up. *)
Definition armed_at_rest : State R Motor (Window R) :=
  iterate bench power_up [rest 300; rest 800].

(** The first control tick after arming finds the pedal at rest; the pedal
    then goes to the floor, and eight iterations later, before the next
    control tick, the filter window holds nothing but the new reading. *)
Definition stepping_down : list Input :=
  [floored 811; floored 812; floored 813; floored 814;
   floored 815; floored 816; floored 817; floored 818].

Definition pedal_down : State R Motor (Window R) :=
  iterate bench (loop bench armed_at_rest (rest 810)) stepping_down.

(** The state [k] control ticks into a run on the floor, one tick every
    10 ms from 820 ms on. *)
Definition cruise_inv (k : nat) (s : State R Motor (Window R)) : Prop :=
  armed s = true
  /\ lastControlUpdate s = 810 + 10 * Z.of_nat k
  /\ filter s = {| size := 8; samples := repeat (IZR 1023) 8 |}.

(** A configuration with other calibration counts. *)
Definition calibrated {F : Type} (lo hi : Z) (c : Config F) : Config F := {|
  REVERSE_DIRECTION := REVERSE_DIRECTION c;
  MAX_SPEED_SPS := MAX_SPEED_SPS c;
  MAX_ACCEL_SPS2 := MAX_ACCEL_SPS2 c;
  ANALOG_MIN_COUNTS := lo;
  ANALOG_MAX_COUNTS := hi;
  ANALOG_REVERSED := ANALOG_REVERSED c;
  ANALOG_DEADBAND_COUNTS := ANALOG_DEADBAND_COUNTS c;
  HOLD_BAND_COUNTS := HOLD_BAND_COUNTS c;
  ANALOG_FILTER_SAMPLES := ANALOG_FILTER_SAMPLES c;
  CONTROL_HZ := CONTROL_HZ c;
  INPUT_CURVE := INPUT_CURVE c;
  LOG_CURVE_K := LOG_CURVE_K c;
  ARM_DELAY_MS := ARM_DELAY_MS c;
  DISABLE_DELAY_MS := DISABLE_DELAY_MS c
|}.


(** [(float)z / (float)z] is 1.0 in binary32. *)
Definition unit_quotient (z : Z) : bool :=
  match SFdiv prec32 emax32 (binary_normalize prec32 emax32 z 0 false)
                            (binary_normalize prec32 emax32 z 0 false) with
  | S754_finite false m e => (m =? 8388608)%positive && (e =? -23)
  | _ => false
  end.

(** An iteration at time [t] with a raw sample of [v] counts. *)
Definition pressed (v t : Z) : Input := {| millis := t; analogRead := v |}.

(** A configuration with another arming delay. *)
Definition arm_delay {F : Type} (d : Z) (c : Config F) : Config F := {|
  REVERSE_DIRECTION := REVERSE_DIRECTION c;
  MAX_SPEED_SPS := MAX_SPEED_SPS c;
  MAX_ACCEL_SPS2 := MAX_ACCEL_SPS2 c;
  ANALOG_MIN_COUNTS := ANALOG_MIN_COUNTS c;
  ANALOG_MAX_COUNTS := ANALOG_MAX_COUNTS c;
  ANALOG_REVERSED := ANALOG_REVERSED c;
  ANALOG_DEADBAND_COUNTS := ANALOG_DEADBAND_COUNTS c;
  HOLD_BAND_COUNTS := HOLD_BAND_COUNTS c;
  ANALOG_FILTER_SAMPLES := ANALOG_FILTER_SAMPLES c;
  CONTROL_HZ := CONTROL_HZ c;
  INPUT_CURVE := INPUT_CURVE c;
  LOG_CURVE_K := LOG_CURVE_K c;
  ARM_DELAY_MS := d;
  DISABLE_DELAY_MS := DISABLE_DELAY_MS c
|}.

(** Power-up of the bench with another arming delay, pedal at rest. *)
Definition power_up_with (d : Z) : State R Motor (Window R) :=
  setup (arm_delay d bench) motor0 window0 (repeat 0 8).

(** The shipped configuration in binary32 with the two calibration counts
    swapped: the rest count above the full count. *)
Definition swapped_counts : Config spec_float :=
  calibrated 1010 10 (@default_config _ (binary32 (fun x => x))).

(** The counts the shipped calibration spans, from rest to full. *)
Definition shipped_counts : list Z :=
  map (fun k => Z.of_nat k + 10) (seq 0 1001).

(** A configuration with the pedal direction set. *)
Definition pedal_reversed {F : Type} (b : bool) (c : Config F) : Config F := {|
  REVERSE_DIRECTION := REVERSE_DIRECTION c;
  MAX_SPEED_SPS := MAX_SPEED_SPS c;
  MAX_ACCEL_SPS2 := MAX_ACCEL_SPS2 c;
  ANALOG_MIN_COUNTS := ANALOG_MIN_COUNTS c;
  ANALOG_MAX_COUNTS := ANALOG_MAX_COUNTS c;
  ANALOG_REVERSED := b;
  ANALOG_DEADBAND_COUNTS := ANALOG_DEADBAND_COUNTS c;
  HOLD_BAND_COUNTS := HOLD_BAND_COUNTS c;
  ANALOG_FILTER_SAMPLES := ANALOG_FILTER_SAMPLES c;
  CONTROL_HZ := CONTROL_HZ c;
  INPUT_CURVE := INPUT_CURVE c;
  LOG_CURVE_K := LOG_CURVE_K c;
  ARM_DELAY_MS := ARM_DELAY_MS c;
  DISABLE_DELAY_MS := DISABLE_DELAY_MS c
|}.

(** With the shipped calibration counts, [(int)(u * 1023)] in binary32 is
    the integer quotient of exact arithmetic, for either pedal
    direction. *)
Definition shipped_rescaling (b : bool) (c : Z) : bool :=
  @scaledADC _ (binary32 (fun x => x))
    (@normalizeADC _ (binary32 (fun x => x))
       (pedal_reversed b (@default_config _ (binary32 (fun x => x)))) c)
  =? (if b then 1010 - c else c - 10) * 1023 / 1000.

(** With the counts 0 and 1023 and a reversed pedal, [(int)(u * 1023)] in
    binary32 is the count [1023 - c] of exact arithmetic or one less. *)
Definition full_scale_rescaling (c : Z) : bool :=
  let x := @scaledADC _ (binary32 (fun x => x))
             (@normalizeADC _ (binary32 (fun x => x))
                (pedal_reversed true
                   (calibrated 0 1023
                      (@default_config _ (binary32 (fun x => x))))) c) in
  (x =? 1023 - c) || (x =? 1023 - c - 1).

(** A binary32 value that is a zero or positive. *)
Definition is_plus (x : spec_float) : bool :=
  match x with
  | S754_zero _ | S754_finite false _ _ => true
  | _ => false
  end.

(** The same binary32 number, bit for bit. *)
Definition SFsame (x y : spec_float) : bool :=
  match x, y with
  | S754_zero a, S754_zero b => Bool.eqb a b
  | S754_finite a m e, S754_finite b m' e' =>
      Bool.eqb a b && (m =? m')%positive && (e =? e')
  | _, _ => false
  end.

(** The counts of the 10-bit converter. *)
Definition counts : list Z := map Z.of_nat (seq 0 1024).

(** What binary32 does to one count [c]: [(float)c] is a zero or positive,
    lies below [(float)(c + 1)] and has the integer part [c]; the quotient
    [c / 1023.0] passes the two clamps unchanged, is 0.0 for [c = 0] only,
    and times 1023 it is [(float)c] again. *)
Definition count_round_trip (c : Z) : bool :=
  let x := binary_normalize prec32 emax32 c 0 false in
  let u := SFdiv prec32 emax32 x (binary_normalize prec32 emax32 1023 0 false) in
  is_plus x
  && SFltb x (binary_normalize prec32 emax32 (c + 1) 0 false)
  && (SFtrunc x =? c)
  && SFsame (clamp01 u) u
  && Bool.eqb (SFeqb u (S754_zero false)) (c =? 0)
  && SFsame (SFmul prec32 emax32 u
               (binary_normalize prec32 emax32 1023 0 false)) x.

(** ** The two-zone sketch of [src/unnamed/part_000]

    The sketch as it was before the hold band: the same configuration
    (without the two calibration counts and the hold band), the same
    globals, [setup] and arming, but [normalizeADC] divides by the
    constant [ANALOG_MAX], [applyDeadband] cuts the normalized value, and
    the control update has two branches, on [u == 0.0]. *)

(** The two float comparisons it uses besides [<]. *)
Class CFloatTests (F : Type) : Type := {
  fle : F -> F -> bool;     (* [x <= y] *)
  feq : F -> F -> bool      (* [x == y] *)
}.

(** The two tests over the reals, to run the two-zone sketch on the bench;
    the tests the sketch makes are those of binary32, below. *)
#[export] Instance exact_tests : CFloatTests R := {|
  fle := fun x y => if Rle_dec x y then true else false;
  feq := fun x y => if Req_dec_T x y then true else false
|}.

Definition binary32_tests : CFloatTests spec_float := {|
  fle := SFleb;
  feq := SFeqb
|}.

Module TwoZone.

Section Sketch.

Context {F S A : Type}.
Context `{FL : CFloat F} `{FT : CFloatTests F}.
Context `{ST : AccelStepper F S} `{RA : RunningAverage F A}.
Variable cfg : Config F.

(** [const int ANALOG_MAX = 1023;] *)
Definition ANALOG_MAX : Z := 1023.

(** [float normalizeADC(int raw)] *)
Definition normalizeADC (raw : Z) : F :=
  let u := fdiv (of_int raw) (of_int ANALOG_MAX) in
  let u := if ANALOG_REVERSED cfg then fsub (of_int 1) u else u in
  let u := if flt u (of_int 0) then of_int 0 else u in
  let u := if flt (of_int 1) u then of_int 1 else u in
  u.

(** [float applyDeadband(float u)] *)
Definition applyDeadband (u : F) : F :=
  if fle (fmul u (of_int ANALOG_MAX)) (of_int (ANALOG_DEADBAND_COUNTS cfg))
  then of_int 0
  else u.

(** [void updateLED(unsigned long now, bool running, bool inDeadband)] *)
Definition updateLED (now : Z) (running inDeadband : bool)
    (s : State F S A) : State F S A :=
  if negb (armed s) then blink now 500 s
  else if running then digitalWrite LED_PIN HIGH s
  else if inDeadband then
    let t := now mod 1000 in
    if (t <? 100) || ((200 <=? t) && (t <? 300))
    then digitalWrite LED_PIN HIGH s
    else digitalWrite LED_PIN LOW s
  else digitalWrite LED_PIN LOW s.

(** The branch of [loop] taken while [!armed] (lines 208-222). *)
Definition arming (now rawADC : Z) (s : State F S A) : State F S A :=
  let s :=
    if rawADC <=? ANALOG_DEADBAND_COUNTS cfg then
      if armStart s =? 0 then set_armStart now s
      else if armHold cfg <=? usub now (armStart s) then set_armed true s
      else s
    else set_armStart 0 s in
  let s := set_stepper (stop (stepper s)) s in
  let s := digitalWrite ENABLE_PIN HIGH s in
  updateLED now false false s.

(** The body of the control update (lines 229-259); it returns the locals
    [running] and [inDeadband] along with the state. *)
Definition control (now filteredADC : Z) (s : State F S A)
    : State F S A * (bool * bool) :=
  let s := set_lastControlUpdate now s in
  let u := normalizeADC filteredADC in
  let u := applyDeadband u in
  if feq u (of_int 0) then
    let s :=
      if disableStart s =? 0 then set_disableStart now s
      else if ulong (DISABLE_DELAY_MS cfg) <=? usub now (disableStart s) then
        let s := digitalWrite ENABLE_PIN HIGH s in
        set_stepper (stop (stepper s)) s
      else s in
    (s, (false, true))
  else
    let s := set_disableStart 0 s in
    let s := digitalWrite ENABLE_PIN LOW s in
    let curved := applyCurve cfg u in
    let targetSpeed := fmul curved (of_int (MAX_SPEED_SPS cfg)) in
    let s := set_stepper (setMaxSpeed (of_int (MAX_SPEED_SPS cfg)) (stepper s)) s in
    let s := set_stepper (setAcceleration (of_int (MAX_ACCEL_SPS2 cfg)) (stepper s)) s in
    let s := set_virtualPos
               (fadd (virtualPos s) (fdiv targetSpeed (of_int (CONTROL_HZ cfg)))) s in
    let s := set_stepper (moveTo (to_long (virtualPos s)) (stepper s)) s in
    (s, (true, false)).

(** [void loop()] *)
Definition loop (s : State F S A) (i : Input) : State F S A :=
  let now := millis i in
  let rawADC := analogRead i in
  let s := set_filter (addValue (of_int rawADC) (filter s)) s in
  let filteredADC := to_int (getAverage (filter s)) in
  if negb (armed s) then arming now rawADC s
  else
    let '(s, (running, inDeadband)) :=
      if controlInterval cfg <=? usub now (lastControlUpdate s)
      then control now filteredADC s
      else (s, (false, false)) in
    let s := set_stepper (run (stepper s)) s in
    updateLED now running inDeadband s.

(** The state after the iterations [l], oldest first. *)
Definition iterate (s : State F S A) (l : list Input) : State F S A :=
  fold_left loop l s.

(** [applyDeadband(normalizeADC(filteredADC))]: the value the control
    update branches on. *)
Definition deadbanded (s : State F S A) (i : Input) : F :=
  applyDeadband (normalizeADC (filteredADC s i)).

End Sketch.

End TwoZone.

(** The configuration of the three-zone sketch that stands for the two-zone
    one: calibration counts 0 and 1023, and no hold band above the
    deadband. *)
Definition two_zone {F : Type} (c : Config F) : Config F := {|
  REVERSE_DIRECTION := REVERSE_DIRECTION c;
  MAX_SPEED_SPS := MAX_SPEED_SPS c;
  MAX_ACCEL_SPS2 := MAX_ACCEL_SPS2 c;
  ANALOG_MIN_COUNTS := 0;
  ANALOG_MAX_COUNTS := 1023;
  ANALOG_REVERSED := ANALOG_REVERSED c;
  ANALOG_DEADBAND_COUNTS := ANALOG_DEADBAND_COUNTS c;
  HOLD_BAND_COUNTS := ANALOG_DEADBAND_COUNTS c;
  ANALOG_FILTER_SAMPLES := ANALOG_FILTER_SAMPLES c;
  CONTROL_HZ := CONTROL_HZ c;
  INPUT_CURVE := INPUT_CURVE c;
  LOG_CURVE_K := LOG_CURVE_K c;
  ARM_DELAY_MS := ARM_DELAY_MS c;
  DISABLE_DELAY_MS := DISABLE_DELAY_MS c
|}.

(** The bench in binary32: the shipped configuration, the two stand-ins
    and a power-up with the pedal at rest. *)
Definition shipped32 : Config spec_float :=
  @default_config _ (binary32 (fun x => x)).

Definition power_up32 : State spec_float Motor (Window spec_float) :=
  setup (FL := binary32 (fun x => x)) (RA := @window _ (binary32 (fun x => x)))
    shipped32 motor0 {| size := 8; samples := [] |} (repeat 0 8).

(** Armed at rest in binary32, as [armed_at_rest]. *)
Definition armed_at_rest32 : State spec_float Motor (Window spec_float) :=
  iterate (FL := binary32 (fun x => x)) (RA := @window _ (binary32 (fun x => x)))
    shipped32 power_up32 [rest 300; rest 800].

(** A [digitalWrite] of [loop]: to the ENABLE pin or to the LED pin. *)
Definition enable_or_led (w : Pin * Level) : Prop :=
  fst w = ENABLE_PIN \/ fst w = LED_PIN.


(** A configuration with another input curve. *)
Definition curve {F : Type} (kind : Z) (k : F) (c : Config F) : Config F := {|
  REVERSE_DIRECTION := REVERSE_DIRECTION c;
  MAX_SPEED_SPS := MAX_SPEED_SPS c;
  MAX_ACCEL_SPS2 := MAX_ACCEL_SPS2 c;
  ANALOG_MIN_COUNTS := ANALOG_MIN_COUNTS c;
  ANALOG_MAX_COUNTS := ANALOG_MAX_COUNTS c;
  ANALOG_REVERSED := ANALOG_REVERSED c;
  ANALOG_DEADBAND_COUNTS := ANALOG_DEADBAND_COUNTS c;
  HOLD_BAND_COUNTS := HOLD_BAND_COUNTS c;
  ANALOG_FILTER_SAMPLES := ANALOG_FILTER_SAMPLES c;
  CONTROL_HZ := CONTROL_HZ c;
  INPUT_CURVE := kind;
  LOG_CURVE_K := k;
  ARM_DELAY_MS := ARM_DELAY_MS c;
  DISABLE_DELAY_MS := DISABLE_DELAY_MS c
|}.

(** The shipped configuration in binary32 with the linear curve
    ([INPUT_CURVE 0]), which never calls [log]. *)
Definition linear32 : Config spec_float :=
  curve 0 (LOG_CURVE_K shipped32) shipped32.

(** The shipped configuration in binary32 with the logarithmic curve and
    [LOG_CURVE_K] set to 2^-30. *)
Definition tiny_k32 : Config spec_float :=
  curve 2 (S754_finite false 8388608 (-53)) shipped32.

(** A stand-in for the C library's [log] that is right at 1.0: the first
    term of its series, [x - 1]. *)
Definition log_near_one (x : spec_float) : spec_float :=
  SFsub prec32 emax32 x (S754_finite false 8388608 (-23)).

(** In binary32 with the linear curve: armed at rest, a first control tick
    at rest, then the pedal goes to the floor as in [pedal_down]. *)
Definition pedal_down32 : State spec_float Motor (Window spec_float) :=
  iterate (FL := binary32 (fun x => x)) (RA := @window _ (binary32 (fun x => x)))
    linear32 power_up32 ([rest 300; rest 800; rest 810] ++ stepping_down).


(** The state [k] control ticks into such a run, in binary32. *)
Definition cruise_inv32 (k : nat)
    (s : State spec_float Motor (Window spec_float)) : Prop :=
  armed s = true
  /\ lastControlUpdate s = 810 + 10 * Z.of_nat k
  /\ filter s = {| size := 8;
                   samples := repeat (binary_normalize prec32 emax32 1023 0 false) 8 |}.

(** With the shipped calibration counts, the two float clamps that end
    [normalizeADC] change nothing in binary32: the result is the rounded
    quotient, or 1.0 minus it for a reversed pedal. *)
Definition shipped_quotient (b : bool) (c : Z) : bool :=
  let q := SFdiv prec32 emax32 (binary_normalize prec32 emax32 (c - 10) 0 false)
             (binary_normalize prec32 emax32 1000 0 false) in
  SFsame (@normalizeADC _ (binary32 (fun x => x))
            (pedal_reversed b (@default_config _ (binary32 (fun x => x)))) c)
         (if b then SFsub prec32 emax32 (S754_finite false 8388608 (-23)) q
          else q).

(** With the shipped calibration counts, the reading of [c] counts is a
    zero or positive in binary32, and the reading of [c + 1] counts is not
    below it (not above it, for a reversed pedal). *)
Definition shipped_ascent (b : bool) (c : Z) : bool :=
  let u := @normalizeADC _ (binary32 (fun x => x))
             (pedal_reversed b (@default_config _ (binary32 (fun x => x)))) in
  is_plus (u c)
  && ((c =? 1010)
      || (if b then SFleb (u (c + 1)) (u c) else SFleb (u c) (u (c + 1)))).

(** Shorthands for the sketch run in binary32 with the linear curve and
    the two stand-ins, and for 1.0. *)
Abbreviation FL32 := (binary32 (fun x => x)).
Abbreviation RA32 := (@window _ (binary32 (fun x => x))).
Abbreviation loop32 := (loop (FL := FL32) (RA := RA32) linear32).
Abbreviation iterate32 := (iterate (FL := FL32) (RA := RA32) linear32).
Abbreviation due32 := (due (F := spec_float) (A := Window spec_float) linear32).
Abbreviation zone32 := (zone (FL := FL32) (RA := RA32) linear32).
Abbreviation pedal32 := (pedal (FL := FL32) (RA := RA32) linear32).
Abbreviation one32 := (S754_finite false 8388608 (-23)).

(** ** Machine integers: basic facts *)

Lemma ulong_small (z : Z) : 0 <= z < 4294967296 -> ulong z = z.
Proof. intros Hz. unfold ulong. apply Z.mod_small. exact Hz. Qed.

Lemma int16_small (z : Z) : -32768 <= z < 32768 -> int16 z = z.
Proof. intros Hz. unfold int16. rewrite Z.mod_small; lia. Qed.

Lemma int16_range (z : Z) : -32768 <= int16 z < 32768.
Proof.
  unfold int16.
  pose proof (Z.mod_pos_bound (z + 32768) 65536 ltac:(lia)). lia.
Qed.

(** ** The control flow of the sketch, for any arithmetic and any libraries *)

Section Control.

Context {F S A : Type}.
Context `{FL : CFloat F} `{ST : AccelStepper F S} `{RA : RunningAverage F A}.
Variable cfg : Config F.

Abbreviation State := (State F S A).


Lemma armHold_floor : 250 <= armHold cfg.
Proof.
  unfold armHold. pose proof (int16_range (ARM_DELAY_MS cfg)).
  rewrite ulong_small; lia.
Qed.

(** *** What [updateLED] leaves alone *)

Lemma blink_led_only (now period : Z) (s : State) :
  led_only s (blink now period s).
Proof.
  unfold blink, led_only.
  destruct (period <=? usub now (lastLED s)); simpl;
    repeat split; auto.
  right. eexists. reflexivity.
Qed.

Lemma updateLED_led_only (now : Z) (r h d : bool) (s : State) :
  led_only s (updateLED now r h d s).
Proof.
  unfold updateLED.
  destruct (negb (armed s)); [apply blink_led_only|].
  destruct r; [|destruct h; [apply blink_led_only|destruct d]];
    try (destruct (_ || _));
    unfold led_only; simpl; repeat split; auto; right; eexists; reflexivity.
Qed.

Lemma led_only_enablePin (s s' : State) :
  led_only s s' -> enablePin s' = enablePin s.
Proof.
  intros (_ & _ & _ & _ & _ & _ & _ & [E | [v E]]);
    unfold enablePin; rewrite E; reflexivity.
Qed.

(** *** The three shapes of an iteration *)

Lemma loop_unarmed (s : State) (i : Input) :
  armed s = false ->
  loop cfg s i =
  arming cfg (millis i) (analogRead i)
    (set_filter (addValue (of_int (analogRead i)) (filter s)) s).
Proof. intros E. unfold loop. simpl. now rewrite E. Qed.

Lemma loop_idle (s : State) (i : Input) :
  armed s = true -> due cfg s i = false ->
  loop cfg s i =
  digitalWrite LED_PIN LOW
    (set_stepper (run (stepper s))
       (set_filter (addValue (of_int (analogRead i)) (filter s)) s)).
Proof.
  intros E D. unfold loop, due in *. simpl. rewrite E. simpl. rewrite D.
  unfold updateLED. simpl. now rewrite E.
Qed.

Lemma loop_tick (s : State) (i : Input) :
  armed s = true -> due cfg s i = true ->
  loop cfg s i =
  let '(s1, (running, inHold, inDeadband)) :=
    control cfg (millis i) (filteredADC s i)
      (set_filter (addValue (of_int (analogRead i)) (filter s)) s) in
  updateLED (millis i) running inHold inDeadband
    (set_stepper (run (stepper s1)) s1).
Proof.
  intros E D. unfold loop, due in *. simpl. rewrite E. simpl. rewrite D.
  reflexivity.
Qed.

(** *** Once armed, always armed *)

Lemma control_armed (now adc : Z) (s : State) :
  armed (fst (control cfg now adc s)) = armed s.
Proof.
  unfold control. destruct (classify _ _); simpl; try reflexivity.
  destruct (_ =? 0); simpl; [reflexivity|].
  destruct (_ <=? _); reflexivity.
Qed.

Lemma loop_keeps_armed (s : State) (i : Input) :
  armed s = true -> armed (loop cfg s i) = true.
Proof.
  intros E. destruct (due cfg s i) eqn:D.
  - rewrite (loop_tick _ _ E D).
    pose proof (control_armed (millis i) (filteredADC s i)
      (set_filter (addValue (of_int (analogRead i)) (filter s)) s)) as C.
    destruct (control _ _ _ _) as [s1 [[r h] d]]. simpl in *.
    destruct (updateLED_led_only (millis i) r h d
                (set_stepper (run (stepper s1)) s1)) as (-> & _).
    simpl. now rewrite C.
  - now rewrite (loop_idle _ _ E D).
Qed.

Lemma iterate_keeps_armed (l : list Input) (s : State) :
  armed s = true -> armed (iterate cfg s l) = true.
Proof.
  revert s. induction l as [|i l IH]; intros s E; simpl.
  - exact E.
  - apply IH. now apply loop_keeps_armed.
Qed.

(** C4. The safety state only moves from UNARMED to ARMED: whatever the
    pedal and the clock do afterwards, and for however many iterations,
    a controller that is armed stays armed. *)
Theorem armed_is_permanent (s : State) (l : list Input) :
  armed s = true ->
  armed (iterate cfg s l) = true
  /\ (forall i, armed (loop cfg s i) = true).
Proof.
  intros E. split.
  - now apply iterate_keeps_armed.
  - intros i. now apply loop_keeps_armed.
Qed.

(** *** The control tick, zone by zone *)

Lemma loop_stop (s : State) (i : Input) :
  armed s = true -> due cfg s i = true -> zone cfg s i = STOP ->
  loop cfg s i =
  let s0 := ticked s i in
  let s1 :=
    if disableStart s =? 0 then set_disableStart (millis i) s0
    else if ulong (DISABLE_DELAY_MS cfg) <=? usub (millis i) (disableStart s)
         then set_stepper (stop (stepper s)) (digitalWrite ENABLE_PIN HIGH s0)
         else s0 in
  updateLED (millis i) false false true (set_stepper (run (stepper s1)) s1).
Proof.
  intros E D Z. rewrite (loop_tick _ _ E D).
  unfold control, zone, pedal in *. rewrite Z. simpl.
  destruct (disableStart s =? 0); [reflexivity|].
  destruct (_ <=? _); reflexivity.
Qed.

Lemma loop_hold (s : State) (i : Input) :
  armed s = true -> due cfg s i = true -> zone cfg s i = HOLD ->
  loop cfg s i =
  let s1 :=
    set_stepper (moveTo (currentPosition (stepper s)) (stepper s))
      (digitalWrite ENABLE_PIN LOW (set_disableStart 0 (ticked s i))) in
  updateLED (millis i) false true false (set_stepper (run (stepper s1)) s1).
Proof.
  intros E D Z. rewrite (loop_tick _ _ E D).
  unfold control, zone, pedal in *. rewrite Z. reflexivity.
Qed.

Lemma loop_throttle (s : State) (i : Input) :
  armed s = true -> due cfg s i = true -> zone cfg s i = THROTTLE ->
  loop cfg s i =
  let v :=
    fadd (virtualPos s)
      (fdiv (fmul (applyCurve cfg (pedal cfg s i)) (of_int (MAX_SPEED_SPS cfg)))
            (of_int (CONTROL_HZ cfg))) in
  let m :=
    moveTo (to_long v)
      (setAcceleration (of_int (MAX_ACCEL_SPS2 cfg))
         (setMaxSpeed (of_int (MAX_SPEED_SPS cfg)) (stepper s))) in
  let s1 :=
    set_stepper m
      (set_virtualPos v
         (digitalWrite ENABLE_PIN LOW (set_disableStart 0 (ticked s i)))) in
  updateLED (millis i) true false false (set_stepper (run (stepper s1)) s1).
Proof.
  intros E D Z. rewrite (loop_tick _ _ E D).
  unfold control, zone, pedal in *. rewrite Z. reflexivity.
Qed.

(** C10. An armed iteration that comes before the control interval has
    elapsed writes the LED pin, low, and nothing else: the ENABLE pin is
    not written, the disable-hold timer, the position accumulator and the
    time of the last control update (and the arming state) keep their
    values, and of the libraries only [stepper.run()] is called, after
    the sample was fed to the filter at the top of [loop]. *)
Theorem idle_iteration_frame (s : State) (i : Input) :
  armed s = true ->
  usub (millis i) (lastControlUpdate s) < controlInterval cfg ->
  let s' := loop cfg s i in
  writes s' = (LED_PIN, LOW) :: writes s
  /\ enablePin s' = enablePin s
  /\ disableStart s' = disableStart s
  /\ virtualPos s' = virtualPos s
  /\ lastControlUpdate s' = lastControlUpdate s
  /\ armed s' = true /\ armStart s' = armStart s
  /\ lastLED s' = lastLED s /\ ledState s' = ledState s
  /\ stepper s' = run (stepper s)
  /\ filter s' = addValue (of_int (analogRead i)) (filter s).
Proof.
  intros E D s'. subst s'.
  rewrite (loop_idle s i E); [|unfold due; now apply Z.leb_gt].
  simpl. repeat split; auto.
Qed.

(** *** The status LED *)

Lemma blink_toggled (period now : Z) (s s0 : State) :
  ledState s0 = ledState s -> lastLED s0 = lastLED s -> ledPin s0 = ledPin s ->
  toggled period now s (blink now period s0).
Proof.
  intros E1 E2 E3. unfold toggled, blink. rewrite E2.
  destruct (period <=? usub now (lastLED s)); simpl.
  - rewrite E1. repeat split; reflexivity.
  - auto.
Qed.


(** What the arming branch does to the fields the LED does not own. *)
Lemma arming_stepper_enable (now raw : Z) (s : State) :
  enablePin (arming cfg now raw s) = HIGH
  /\ stepper (arming cfg now raw s) = stop (stepper s).
Proof.
  unfold arming.
  match goal with |- context [updateLED now false false false ?x] =>
    pose proof (updateLED_led_only now false false false x) as L;
    pose proof (led_only_enablePin _ _ L) as P;
    destruct L as (_ & _ & _ & _ & _ & L & _)
  end.
  rewrite P, L. split; [reflexivity|].
  simpl. destruct (raw <=? _); [destruct (armStart s =? 0);
    [|destruct (_ <=? _)]|]; reflexivity.
Qed.


(** The LED after an iteration that leaves the controller unarmed. *)
Lemma unarmed_led (s : State) (i : Input) :
  armed (loop cfg s i) = false -> toggled 500 (millis i) s (loop cfg s i).
Proof.
  intros E'. destruct (armed s) eqn:E.
  - rewrite (loop_keeps_armed s i E) in E'. discriminate.
  - rewrite (loop_unarmed s i E) in *. unfold arming in *. cbv zeta in *.
    match type of E' with context [updateLED ?n ?r ?h ?d ?x] =>
      set (pre := x) in *;
      destruct (updateLED_led_only n r h d pre) as (Ea & _);
      rewrite Ea in E'; unfold updateLED; rewrite E'
    end.
    simpl. apply blink_toggled; subst pre; simpl;
      (destruct (analogRead i <=? _);
       [destruct (armStart s =? 0); [|destruct (_ <=? _)]|]; reflexivity).
Qed.


(** *** The driver's ENABLE input *)

Lemma loop_unarmed_disables (s : State) (i : Input) :
  armed s = false ->
  enablePin (loop cfg s i) = HIGH /\ stepper (loop cfg s i) = stop (stepper s).
Proof.
  intros E. rewrite (loop_unarmed s i E).
  apply (arming_stepper_enable (millis i) (analogRead i)
           (set_filter (addValue (of_int (analogRead i)) (filter s)) s)).
Qed.

Lemma loop_idle_enablePin (s : State) (i : Input) :
  armed s = true -> due cfg s i = false ->
  enablePin (loop cfg s i) = enablePin s.
Proof. intros E D. now rewrite (loop_idle s i E D). Qed.

Lemma loop_leaving_stop (s : State) (i : Input) :
  armed s = true -> due cfg s i = true -> zone cfg s i <> STOP ->
  disableStart (loop cfg s i) = 0 /\ enablePin (loop cfg s i) = LOW.
Proof.
  intros E D Z. destruct (zone cfg s i) eqn:Zn; [congruence| |].
  - rewrite (loop_hold s i E D Zn). cbv zeta.
    match goal with |- context [updateLED ?n ?r ?h ?d ?x] =>
      pose proof (updateLED_led_only n r h d x) as L;
      rewrite (led_only_enablePin _ _ L);
      destruct L as (_ & _ & -> & _) end.
    split; reflexivity.
  - rewrite (loop_throttle s i E D Zn). cbv zeta.
    match goal with |- context [updateLED ?n ?r ?h ?d ?x] =>
      pose proof (updateLED_led_only n r h d x) as L;
      rewrite (led_only_enablePin _ _ L);
      destruct L as (_ & _ & -> & _) end.
    split; reflexivity.
Qed.

(** A STOP tick: what it does to the timer, the ENABLE pin and the
    stepper. *)
Lemma loop_in_stop (s : State) (i : Input) :
  armed s = true -> due cfg s i = true -> zone cfg s i = STOP ->
  let s' := loop cfg s i in
  (disableStart s = 0 ->
     disableStart s' = millis i /\ enablePin s' = enablePin s
     /\ stepper s' = run (stepper s))
  /\ (elapsed cfg s i = true ->
     disableStart s' = disableStart s /\ enablePin s' = HIGH
     /\ stepper s' = run (stop (stepper s)))
  /\ (disableStart s <> 0 -> elapsed cfg s i = false ->
     disableStart s' = disableStart s /\ enablePin s' = enablePin s
     /\ stepper s' = run (stepper s)).
Proof.
  intros E D Z s'. subst s'. rewrite (loop_stop s i E D Z). cbv zeta.
  match goal with |- context [updateLED ?n ?r ?h ?d ?x] =>
    pose proof (updateLED_led_only n r h d x) as L;
    rewrite (led_only_enablePin _ _ L);
    destruct L as (_ & _ & -> & _ & _ & -> & _) end.
  unfold elapsed.
  destruct (Z.eqb_spec (disableStart s) 0) as [E0|E0]; simpl.
  - repeat split; intros; try reflexivity; try discriminate; congruence.
  - destruct (_ <=? _); simpl;
      repeat split; intros; try reflexivity; try discriminate; congruence.
Qed.

Lemma enabled_only_armed (s : State) :
  reachable cfg s -> enablePin s = LOW -> armed s = true.
Proof.
  induction 1 as [m a l|s i R IH]; intros P.
  - discriminate P.
  - destruct (armed s) eqn:E.
    + now apply loop_keeps_armed.
    + destruct (loop_unarmed_disables s i E) as [Q _]. congruence.
Qed.

(** C2, as the sketch has it.  The drive is enabled (ENABLE low) only
    while armed.  An iteration that starts unarmed forces ENABLE high and
    calls [stepper.stop()], whatever the pedal reads.  An armed control
    tick leaves the drive enabled exactly when the zone is not STOP, or
    the zone is STOP, the disable-hold delay has not elapsed and the drive
    was enabled before the tick; an armed iteration between two ticks
    leaves ENABLE as it is. *)
Theorem drive_enable_rule (s : State) (i : Input) :
  reachable cfg s ->
  let s' := loop cfg s i in
  (enablePin s = LOW -> armed s = true)
  /\ (armed s = false ->
      enablePin s' = HIGH /\ stepper s' = stop (stepper s))
  /\ (armed s = true -> due cfg s i = true ->
      (enablePin s' = LOW <->
       zone cfg s i <> STOP
       \/ (zone cfg s i = STOP /\ elapsed cfg s i = false
           /\ enablePin s = LOW)))
  /\ (armed s = true -> due cfg s i = false -> enablePin s' = enablePin s).
Proof.
  intros R s'. subst s'.
  split; [now apply enabled_only_armed|].
  split; [now apply loop_unarmed_disables|].
  split; [|now apply loop_idle_enablePin].
  intros E D. split.
  - intros P. destruct (zone cfg s i) eqn:Z; [|left; congruence..].
    right. destruct (loop_in_stop s i E D Z) as (Ha & Hb & Hc).
    destruct (elapsed cfg s i) eqn:El.
    + destruct (Hb eq_refl) as (_ & Q & _). congruence.
    + destruct (Z.eq_dec (disableStart s) 0) as [E0|E0].
      * destruct (Ha E0) as (_ & Q & _). repeat split; congruence.
      * destruct (Hc E0 eq_refl) as (_ & Q & _). repeat split; congruence.
  - intros [Z | (Z & El & P)].
    + now apply loop_leaving_stop.
    + destruct (loop_in_stop s i E D Z) as (Ha & Hb & Hc).
      destruct (Z.eq_dec (disableStart s) 0) as [E0|E0].
      * destruct (Ha E0) as (_ & Q & _). congruence.
      * destruct (Hc E0 El) as (_ & Q & _). congruence.
Qed.

(** *** The disable hold *)




(** *** Arming *)

Lemma loop_arming (s : State) (i : Input) :
  armed s = false ->
  let s' := loop cfg s i in
  (released cfg i = false -> armed s' = false /\ armStart s' = 0)
  /\ (released cfg i = true -> armStart s = 0 ->
      armed s' = false /\ armStart s' = millis i)
  /\ (released cfg i = true -> armStart s <> 0 ->
      armHold cfg <= usub (millis i) (armStart s) -> armed s' = true)
  /\ (released cfg i = true -> armStart s <> 0 ->
      usub (millis i) (armStart s) < armHold cfg ->
      armed s' = false /\ armStart s' = armStart s).
Proof.
  intros E s'. subst s'. rewrite (loop_unarmed s i E). unfold arming, released.
  cbv zeta.
  match goal with |- context [updateLED ?n ?r ?h ?d ?x] =>
    destruct (updateLED_led_only n r h d x) as (-> & -> & _) end.
  simpl.
  destruct (analogRead i <=? ANALOG_DEADBAND_COUNTS cfg).
  - destruct (Z.eqb_spec (armStart s) 0) as [E0|E0].
    + repeat split; intros; simpl; try congruence.
    + destruct (Z.leb_spec (armHold cfg) (usub (millis i) (armStart s)));
        repeat split; intros; simpl; try congruence; try lia.
  - repeat split; intros; simpl; congruence.
Qed.

Lemma opens_run_released_last (l1 : list Input) (a : Input) (mid : list Input) :
  released cfg a = true -> Forall (fun i => released cfg i = true) mid ->
  ~ opens_run cfg (l1 ++ a :: mid).
Proof.
  intros Ra Rm [E | (l0 & h & E & Rh)].
  - destruct l1; discriminate E.
  - destruct (exists_last (l := a :: mid) ltac:(discriminate)) as (m & x & Em).
    assert (Rx : released cfg x = true).
    { assert (In x (a :: mid)) as [<- | Hin]
        by (rewrite Em; apply in_or_app; right; now left); [exact Ra|].
      rewrite Forall_forall in Rm. now apply Rm. }
    rewrite Em, app_assoc in E. apply app_inj_tail in E as [_ <-]. congruence.
Qed.

(** A run of released samples has one opening. *)
Lemma run_opening_unique (l1 l1' r r' : list Input) :
  l1 ++ r = l1' ++ r' ->
  opens_run cfg l1 -> opens_run cfg l1' ->
  Forall (fun i => released cfg i = true) r ->
  Forall (fun i => released cfg i = true) r' ->
  l1 = l1' /\ r = r'.
Proof.
  assert (K : forall k1 k2 q1 q2,
    k1 ++ q1 = k2 ++ q2 -> opens_run cfg k1 ->
    Forall (fun i => released cfg i = true) q2 ->
    forall m, k1 = k2 ++ m -> m = []).
  { intros k1 k2 q1 q2 E O Rq m Em.
    destruct m as [|x m]; [reflexivity|exfalso].
    destruct O as [O | (l0 & h & O & Rh)].
    - rewrite O in Em. destruct k2; discriminate Em.
    - rewrite Em, <- app_assoc in E. apply app_inv_head in E.
      rewrite Em in O.
      destruct (exists_last (l := x :: m) ltac:(discriminate)) as (m' & y & Ey).
      rewrite Ey, app_assoc in O. apply app_inj_tail in O as [_ <-].
      assert (Hin : In y q2).
      { rewrite <- E, Ey. apply in_or_app. left. apply in_or_app. right. now left. }
      rewrite Forall_forall in Rq. specialize (Rq _ Hin). congruence. }
  intros E O O' Rr Rr'.
  destruct (app_eq_app _ _ _ _ E) as (m & [[E1 E2] | [E1 E2]]).
  - pose proof (K _ _ _ _ E O Rr' m E1) as ->.
    rewrite app_nil_r in E1. subst. now apply app_inv_head in E.
  - pose proof (K _ _ _ _ (eq_sym E) O' Rr m E1) as ->.
    rewrite app_nil_r in E1. subst. now apply app_inv_head in E.
Qed.

Lemma held_released_snoc (d : Z) (l : list Input) (i : Input) :
  held_released cfg d l -> held_released cfg d (l ++ [i]).
Proof.
  intros (l1 & a & mid & b & l2 & -> & H).
  exists l1, a, mid, b, (l2 ++ [i]). split; [|exact H].
  now rewrite <- !app_assoc, <- !app_comm_cons, <- app_assoc, <- app_comm_cons.
Qed.

Lemma held_released_snoc_inv (d : Z) (l : list Input) (i : Input) :
  held_released cfg d (l ++ [i]) ->
  held_released cfg d l
  \/ exists l1 a mid,
       l = l1 ++ a :: mid /\ opens_run cfg l1 /\ released cfg a = true
       /\ Forall (fun x => released cfg x = true) mid
       /\ released cfg i = true /\ d <= usub (millis i) (millis a).
Proof.
  intros (l1 & a & mid & b & l2 & E & O & Ra & Rm & Rb & Hd).
  destruct l2 as [|y l2].
  - right. exists l1, a, mid.
    replace (l1 ++ a :: mid ++ [b]) with ((l1 ++ a :: mid) ++ [b]) in E
      by now rewrite <- app_assoc, <- app_comm_cons.
    apply app_inj_tail in E as [-> ->]. repeat split; assumption.
  - left.
    destruct (exists_last (l := y :: l2) ltac:(discriminate)) as (l2' & x & El).
    rewrite El in E.
    replace (l1 ++ a :: mid ++ b :: l2' ++ [x])
      with ((l1 ++ a :: mid ++ b :: l2') ++ [x]) in E
      by now rewrite <- !app_assoc, <- !app_comm_cons, <- app_assoc,
                     <- app_comm_cons.
    apply app_inj_tail in E as [-> _].
    exists l1, a, mid, b, l2'. repeat split; assumption.
Qed.

Lemma iterate_snoc (s : State) (l : list Input) (i : Input) :
  iterate cfg s (l ++ [i]) = loop cfg (iterate cfg s l) i.
Proof. unfold iterate. now rewrite fold_left_app. Qed.

(** While unarmed the arm-hold timer is unset exactly when no run of
    released samples is open, and else holds the time of the sample that
    opened the run. *)
Lemma arming_invariant (s : State) (l : list Input) :
  armed s = false -> armStart s = 0 ->
  Forall (fun i => millis i <> 0) l ->
  let s' := iterate cfg s l in
  (armed s' = true /\ held_released cfg (armHold cfg) l)
  \/ (armed s' = false /\ ~ held_released cfg (armHold cfg) l
      /\ ((armStart s' = 0 /\ opens_run cfg l)
          \/ exists l1 a mid,
               l = l1 ++ a :: mid /\ opens_run cfg l1
               /\ released cfg a = true
               /\ Forall (fun x => released cfg x = true) mid
               /\ armStart s' = millis a)).
Proof.
  intros E E0. induction l as [|i l IH] using rev_ind; intros Hm.
  - right. simpl. split; [exact E|]. split.
    + intros (l1 & a & mid & b & l2 & H & _). destruct l1; discriminate H.
    + left. split; [exact E0 | now left].
  - apply Forall_app in Hm as [Hl Hi]. inversion Hi as [|? ? Hi' _]; subst.
    cbv zeta in *. rewrite iterate_snoc.
    destruct (IH Hl) as [[Ea Hh] | (Ea & Nh & Hrun)]; clear IH.
    { left. split; [now apply loop_keeps_armed | now apply held_released_snoc]. }
    destruct (loop_arming (iterate cfg s l) i Ea) as (Hhigh & Hstart & Harm & Hwait).
    destruct (released cfg i) eqn:Ri.
    + destruct Hrun as [[Es O] | (l1 & a & mid & El & O & Ra & Rm & Es)].
      * (* a released sample opens a run *)
        right. destruct (Hstart eq_refl Es) as [Ea' Es']. split; [exact Ea'|].
        split.
        -- intros H. apply held_released_snoc_inv in H
             as [H | (l1 & a & mid & El & _ & Ra & Rm & _)]; [now apply Nh|].
           subst l. now apply (opens_run_released_last l1 a mid Ra Rm).
        -- right. exists l, i, []. rewrite Es'. repeat split; auto.
      * assert (Ne : armStart (iterate cfg s l) <> 0).
        { rewrite Es. rewrite Forall_forall in Hl. apply Hl. subst l.
          apply in_or_app. right. now left. }
        destruct (Z.le_gt_cases (armHold cfg)
                    (usub (millis i) (armStart (iterate cfg s l)))) as [Hd|Hd].
        -- (* the hold is complete *)
           left. split; [now apply Harm|].
           exists l1, a, mid, i, []. rewrite Es in Hd. subst l.
           repeat split; auto.
           now rewrite <- app_assoc, <- app_comm_cons.
        -- (* the hold goes on *)
           right. destruct (Hwait eq_refl Ne ltac:(lia)) as [Ea' Es'].
           split; [exact Ea'|]. split.
           ++ intros H. apply held_released_snoc_inv in H
                as [H | (l1' & a' & mid' & El' & O' & Ra' & Rm' & _ & Hd')];
                [now apply Nh|].
              rewrite El in El'.
              destruct (run_opening_unique l1 l1' (a :: mid) (a' :: mid') El' O O')
                as [_ Er]; [now constructor | now constructor|].
              injection Er as <- _. rewrite Es in Hd. lia.
           ++ right. exists l1, a, (mid ++ [i]). rewrite Es', Es. subst l.
              repeat split; auto.
              ** now rewrite <- app_assoc, <- app_comm_cons.
              ** apply Forall_app. split; [exact Rm | now constructor].
    + (* a sample above the deadband closes any run *)
      right. destruct (Hhigh eq_refl) as [Ea' Es']. split; [exact Ea'|]. split.
      * intros H. apply held_released_snoc_inv in H
          as [H | (_ & _ & _ & _ & _ & _ & _ & Ri' & _)];
          [now apply Nh | congruence].
      * left. split; [exact Es'|]. right. exists l, i. now split.
Qed.


Lemma loop_filter (s : State) (i : Input) :
  filter (loop cfg s i) = addValue (of_int (analogRead i)) (filter s).
Proof.
  destruct (armed s) eqn:E.
  - destruct (due cfg s i) eqn:D.
    + destruct (zone cfg s i) eqn:Z.
      * rewrite (loop_stop s i E D Z). cbv zeta.
        match goal with |- context [updateLED ?n ?r ?h ?d ?x] =>
          destruct (updateLED_led_only n r h d x)
            as (_ & _ & _ & _ & _ & _ & -> & _) end.
        simpl. destruct (disableStart s =? 0); [reflexivity|].
        destruct (_ <=? _); reflexivity.
      * rewrite (loop_hold s i E D Z). cbv zeta.
        match goal with |- context [updateLED ?n ?r ?h ?d ?x] =>
          destruct (updateLED_led_only n r h d x)
            as (_ & _ & _ & _ & _ & _ & -> & _) end.
        reflexivity.
      * rewrite (loop_throttle s i E D Z). cbv zeta.
        match goal with |- context [updateLED ?n ?r ?h ?d ?x] =>
          destruct (updateLED_led_only n r h d x)
            as (_ & _ & _ & _ & _ & _ & -> & _) end.
        reflexivity.
    + now rewrite (loop_idle s i E D).
  - rewrite (loop_unarmed s i E). unfold arming. cbv zeta.
    match goal with |- context [updateLED ?n ?r ?h ?d ?x] =>
      destruct (updateLED_led_only n r h d x)
        as (_ & _ & _ & _ & _ & _ & -> & _) end.
    simpl. destruct (analogRead i <=? _);
      [destruct (armStart s =? 0); [|destruct (_ <=? _)]|]; reflexivity.
Qed.

Lemma loop_tick_time (s : State) (i : Input) :
  armed s = true ->
  lastControlUpdate (loop cfg s i) =
  if due cfg s i then millis i else lastControlUpdate s.
Proof.
  intros E. destruct (due cfg s i) eqn:D.
  - destruct (zone cfg s i) eqn:Z.
    + rewrite (loop_stop s i E D Z). cbv zeta.
      match goal with |- context [updateLED ?n ?r ?h ?d ?x] =>
        destruct (updateLED_led_only n r h d x) as (_ & _ & _ & -> & _) end.
      simpl. destruct (disableStart s =? 0); [reflexivity|].
      destruct (_ <=? _); reflexivity.
    + rewrite (loop_hold s i E D Z). cbv zeta.
      match goal with |- context [updateLED ?n ?r ?h ?d ?x] =>
        destruct (updateLED_led_only n r h d x) as (_ & _ & _ & -> & _) end.
      reflexivity.
    + rewrite (loop_throttle s i E D Z). cbv zeta.
      match goal with |- context [updateLED ?n ?r ?h ?d ?x] =>
        destruct (updateLED_led_only n r h d x) as (_ & _ & _ & -> & _) end.
      reflexivity.
  - now rewrite (loop_idle s i E D).
Qed.

(** A STOP tick leaves the position accumulator alone. *)
Lemma loop_stop_virtualPos (s : State) (i : Input) :
  armed s = true -> due cfg s i = true -> zone cfg s i = STOP ->
  virtualPos (loop cfg s i) = virtualPos s.
Proof.
  intros E D Z. rewrite (loop_stop s i E D Z). cbv zeta.
  match goal with |- context [updateLED ?n ?r ?h ?d ?x] =>
    destruct (updateLED_led_only n r h d x) as (_ & _ & _ & _ & -> & _) end.
  simpl. destruct (disableStart s =? 0); [reflexivity|].
  destruct (_ <=? _); reflexivity.
Qed.

(** Iterations between two control ticks feed the filter and nothing
    else. *)
Lemma idle_run (l : list Input) (s : State) :
  armed s = true ->
  Forall (fun i => usub (millis i) (lastControlUpdate s) < controlInterval cfg) l ->
  let s' := iterate cfg s l in
  armed s' = true
  /\ lastControlUpdate s' = lastControlUpdate s
  /\ disableStart s' = disableStart s
  /\ virtualPos s' = virtualPos s
  /\ enablePin s' = enablePin s
  /\ filter s' =
     fold_left (fun a i => addValue (of_int (analogRead i)) a) l (filter s).
Proof.
  revert s. induction l as [|i l IH]; intros s E Hl; simpl.
  - repeat split; try reflexivity. exact E.
  - inversion Hl as [|? ? Hi Hl']; subst.
    assert (D : due cfg s i = false) by (unfold due; now apply Z.leb_gt).
    pose proof (loop_idle s i E D) as Eq.
    assert (Et : lastControlUpdate (loop cfg s i) = lastControlUpdate s)
      by now rewrite Eq.
    destruct (IH (loop cfg s i)) as (Ha & Hb & Hc & Hd & He & Hf).
    + now apply loop_keeps_armed.
    + now rewrite Et.
    + rewrite Ha, Hb, Hc, Hd, He, Hf, Eq. repeat split; reflexivity.
Qed.




Lemma reachable_iterate (l : list Input) (s : State) :
  reachable cfg s -> reachable cfg (iterate cfg s l).
Proof.
  revert s. induction l as [|i l IH]; intros s R; simpl; [exact R|].
  apply IH. now apply reachable_loop.
Qed.

End Control.


(** ** The reading and the three zones over the reals *)

Lemma Rtrunc_IZR (z : Z) : Rtrunc (IZR z) = z.
Proof.
  unfold Rtrunc. destruct (Rle_dec 0 (IZR z)) as [P|N].
  - symmetry. apply Int_part_spec. lra.
  - rewrite <- opp_IZR. rewrite <- (Int_part_spec (IZR (- z)) (- z)); [lia|lra].
Qed.

Section Exact.

Context {S A : Type}.
Context `{ST : AccelStepper R S} `{RA : RunningAverage R A}.
Variable cfg : Config R.

Local Open Scope R_scope.


(** The calibration scenario of the sketch: at or below the rest count the
    pedal reads 0.0, at or above the full count it reads 1.0. *)
Lemma normalizeADC_exact_ends (raw : Z) :
  (-32768 <= ANALOG_MAX_COUNTS cfg - ANALOG_MIN_COUNTS cfg < 32768)%Z ->
  (ANALOG_MIN_COUNTS cfg < ANALOG_MAX_COUNTS cfg)%Z ->
  ANALOG_REVERSED cfg = false ->
  ((raw <= ANALOG_MIN_COUNTS cfg)%Z -> normalizeADC cfg raw = 0)
  /\ ((ANALOG_MAX_COUNTS cfg <= raw)%Z -> normalizeADC cfg raw = 1).
Proof.
  intros Hr Hlt Hrev. unfold normalizeADC. cbv zeta. rewrite Hrev.
  rewrite (int16_small _ Hr).
  assert (Hd : 0 < IZR (ANALOG_MAX_COUNTS cfg - ANALOG_MIN_COUNTS cfg))
    by (apply IZR_lt; lia).
  split; intros Hraw.
  - assert (E : (if ANALOG_MAX_COUNTS cfg <?
                   (if raw <? ANALOG_MIN_COUNTS cfg
                    then ANALOG_MIN_COUNTS cfg else raw)
                 then ANALOG_MAX_COUNTS cfg
                 else if raw <? ANALOG_MIN_COUNTS cfg
                      then ANALOG_MIN_COUNTS cfg else raw)%Z
                = ANALOG_MIN_COUNTS cfg).
    { destruct (Z.ltb_spec raw (ANALOG_MIN_COUNTS cfg));
        destruct (Z.ltb_spec (ANALOG_MAX_COUNTS cfg) (ANALOG_MIN_COUNTS cfg));
        try destruct (Z.ltb_spec (ANALOG_MAX_COUNTS cfg) raw); lia. }
    rewrite E, Z.sub_diag. simpl.
    replace (0 / _) with 0 by (field; lra).
    destruct (Rlt_dec 0 0); [lra|]. destruct (Rlt_dec 1 0); [lra|reflexivity].
  - assert (E : (if ANALOG_MAX_COUNTS cfg <?
                   (if raw <? ANALOG_MIN_COUNTS cfg
                    then ANALOG_MIN_COUNTS cfg else raw)
                 then ANALOG_MAX_COUNTS cfg
                 else if raw <? ANALOG_MIN_COUNTS cfg
                      then ANALOG_MIN_COUNTS cfg else raw)%Z
                = ANALOG_MAX_COUNTS cfg).
    { destruct (Z.ltb_spec raw (ANALOG_MIN_COUNTS cfg));
        destruct (Z.ltb_spec (ANALOG_MAX_COUNTS cfg) (ANALOG_MIN_COUNTS cfg));
        try destruct (Z.ltb_spec (ANALOG_MAX_COUNTS cfg) raw); lia. }
    rewrite E, (int16_small _ Hr). simpl.
    replace (_ / _) with 1 by (field; lra).
    destruct (Rlt_dec 1 0); [lra|]. destruct (Rlt_dec 1 1); [lra|reflexivity].
Qed.

(** The three curves over the reals, where the bench is run. *)
Lemma applyCurve_shape (u v : R) :
  (INPUT_CURVE cfg = 2%Z -> 0 < LOG_CURVE_K cfg) ->
  0 <= u -> u <= v -> v <= 1 ->
  applyCurve cfg u <= applyCurve cfg v
  /\ applyCurve cfg 0 = 0
  /\ applyCurve cfg 1 = 1.
Proof.
  intros Hk Hu Huv Hv. unfold applyCurve. simpl.
  destruct (Z.eqb_spec (INPUT_CURVE cfg) 1) as [_|_].
  - repeat split; nra.
  - destruct (Z.eqb_spec (INPUT_CURVE cfg) 2) as [E2|_]; [|repeat split; lra].
    specialize (Hk E2). set (k := LOG_CURVE_K cfg) in *.
    assert (Hl : 0 < ln (1 + k)).
    { rewrite <- ln_1. apply ln_increasing; lra. }
    repeat split.
    + apply Rmult_le_compat_r; [left; now apply Rinv_0_lt_compat|].
      destruct (Req_dec u v) as [->|Ne]; [lra|].
      left. apply ln_increasing; nra.
    + rewrite Rmult_0_r, Rplus_0_r, ln_1. unfold Rdiv. apply Rmult_0_l.
    + rewrite Rmult_1_r. field. lra.
Qed.



End Exact.

(** ** The bench: the shipped configuration, run in exact arithmetic *)

Lemma window_mean (v : Z) (n : nat) (w : Window R) :
  samples w = repeat (IZR v) (Datatypes.S n) -> getAverage w = IZR v.
Proof.
  intros E. simpl getAverage. rewrite E, repeat_length.
  assert (K : forall m, fold_right Rplus (IZR 0) (repeat (IZR v) m)
                        = (INR m * IZR v)%R).
  { induction m as [|m IH]; [simpl; lra|].
    change (repeat (IZR v) (Datatypes.S m)) with (IZR v :: repeat (IZR v) m).
    simpl fold_right. rewrite IH, S_INR. lra. }
  simpl of_int. rewrite K, <- INR_IZR_INZ.
  pose proof (pos_INR n). rewrite S_INR. field. lra.
Qed.

(** On the bench, a window full of one reading [v] with the same reading
    coming in filters to [v]. *)
Lemma bench_filtered (v : Z) (s : State R Motor (Window R)) (t : Z) :
  (-32768 <= v < 32768)%Z ->
  filter s = {| size := 8; samples := repeat (IZR v) 8 |} ->
  filteredADC s {| millis := t; analogRead := v |} = v
  /\ addValue (IZR v) (filter s) = filter s.
Proof.
  intros Hv E. unfold filteredADC. simpl analogRead. rewrite E. split.
  - rewrite (window_mean v 7); [|reflexivity].
    simpl to_int. rewrite Rtrunc_IZR. now apply int16_small.
  - reflexivity.
Qed.

Lemma bench_calibration :
  (-32768 <= ANALOG_MAX_COUNTS bench - ANALOG_MIN_COUNTS bench < 32768)%Z
  /\ (ANALOG_MIN_COUNTS bench < ANALOG_MAX_COUNTS bench)%Z
  /\ ANALOG_REVERSED bench = false.
Proof. simpl. repeat split; lia. Qed.

(** At rest the bench reads 0.0 and classifies STOP; on the floor it reads
    1.0, classifies THROTTLE and shapes to 1.0. *)
Lemma bench_zone (s : State R Motor (Window R)) (i : Input) :
  ((filteredADC s i <= 10)%Z ->
     pedal bench s i = 0%R /\ zone bench s i = STOP)
  /\ ((1010 <= filteredADC s i)%Z ->
     pedal bench s i = 1%R /\ zone bench s i = THROTTLE
     /\ applyCurve bench (pedal bench s i) = 1%R).
Proof.
  destruct bench_calibration as (Hr & Hlt & Hrev).
  destruct (normalizeADC_exact_ends bench (filteredADC s i) Hr Hlt Hrev)
    as [Hlo Hhi].
  unfold zone, pedal. split; intros Hf.
  - rewrite (Hlo Hf). split; [reflexivity|].
    unfold scaledADC. simpl to_int.
    replace (0 * 1023)%R with (IZR 0) by lra. rewrite Rtrunc_IZR. reflexivity.
  - rewrite (Hhi Hf). split; [reflexivity|]. split.
    + unfold scaledADC. simpl to_int.
      replace (1 * 1023)%R with (IZR 1023) by lra. rewrite Rtrunc_IZR.
      reflexivity.
    + apply (applyCurve_shape bench 0 1); simpl; intros; lra.
Qed.


(** With the window full of readings at rest the bench stays in STOP. *)
Lemma bench_rest_zone (s : State R Motor (Window R)) (t : Z) :
  filter s = {| size := 8; samples := repeat (IZR 0) 8 |} ->
  zone bench s (rest t) = STOP
  /\ filter (loop bench s (rest t)) = {| size := 8; samples := repeat (IZR 0) 8 |}.
Proof.
  intros Ef.
  destruct (bench_filtered 0 s t ltac:(lia) Ef) as [Hf Ha].
  fold (rest t) in Hf. split.
  - destruct (bench_zone s (rest t)) as [Hz _]. now destruct (Hz ltac:(lia)).
  - rewrite loop_filter. simpl analogRead. simpl of_int. now rewrite Ha.
Qed.

Lemma armed_at_rest_facts :
  reachable bench armed_at_rest
  /\ armed armed_at_rest = true
  /\ disableStart armed_at_rest = 0
  /\ lastControlUpdate armed_at_rest = 0
  /\ enablePin armed_at_rest = HIGH
  /\ virtualPos armed_at_rest = 0%R
  /\ filter armed_at_rest = {| size := 8; samples := repeat (IZR 0) 8 |}.
Proof.
  split; [|repeat split; reflexivity].
  apply (reachable_iterate bench [rest 300; rest 800]). apply reachable_setup.
Qed.

(** The first control tick after arming, with the pedal still at rest. *)
Lemma first_tick_at_rest :
  let s := armed_at_rest in
  let i := rest 810 in
  let s' := loop bench s i in
  due bench s i = true /\ zone bench s i = STOP
  /\ armed s' = true /\ disableStart s' = 810 /\ lastControlUpdate s' = 810
  /\ enablePin s' = HIGH /\ virtualPos s' = 0%R
  /\ filter s' = {| size := 8; samples := repeat (IZR 0) 8 |}.
Proof.
  intros s i s'.
  destruct armed_at_rest_facts as (_ & E & E0 & Et & P & V & Ef).
  assert (D : due bench s i = true) by reflexivity.
  destruct (bench_rest_zone s 810 Ef) as [Z Ef'].
  destruct (loop_in_stop bench s i E D Z) as (Ha & _).
  destruct (Ha E0) as (Hd & Hp & _).
  split; [exact D|]. split; [exact Z|].
  split; [now apply loop_keeps_armed|]. split; [exact Hd|].
  split; [|split; [|split; [|exact Ef']]].
  - subst s'. rewrite (loop_tick_time bench s i E), D. reflexivity.
  - subst s'. rewrite Hp. exact P.
  - subst s'. rewrite (loop_stop_virtualPos bench s i E D Z). exact V.
Qed.

(** The pedal is down and the filter has caught up, between two ticks. *)
Lemma pedal_down_facts :
  reachable bench pedal_down
  /\ cruise_inv 0 pedal_down
  /\ virtualPos pedal_down = 0%R
  /\ enablePin pedal_down = HIGH.
Proof.
  pose proof first_tick_at_rest as T. cbv zeta in T.
  destruct T as (_ & _ & E & _ & Et & P & V & Ef).
  destruct armed_at_rest_facts as (R & _).
  unfold cruise_inv, pedal_down. split.
  { apply reachable_iterate. now apply reachable_loop. }
  destruct (idle_run bench stepping_down (loop bench armed_at_rest (rest 810)) E)
    as (Ha & Hb & _ & Hd & He & Hf).
  { rewrite Et. repeat constructor. }
  rewrite Ha, Hb, Hd, He, Hf, Et, P, V, Ef.
  repeat split; reflexivity.
Qed.



(** ** binary32: which calibrations [normalizeADC] survives *)

Section Rounding.

Variables prec emax : Z.

Lemma shr_1_nonneg (mrs : shr_record) :
  0 <= shr_m mrs -> 0 <= shr_m (shr_1 mrs).
Proof.
  destruct mrs as [m r s]. simpl. destruct m as [|p|p]; simpl; intros H.
  - lia.
  - destruct p; simpl; lia.
  - lia.
Qed.

Lemma iter_shr_1_nonneg (p : positive) : forall mrs,
  0 <= shr_m mrs -> 0 <= shr_m (iter_pos shr_1 p mrs).
Proof.
  induction p as [p IH|p IH|]; intros mrs H; simpl.
  - apply IH, IH. now apply shr_1_nonneg.
  - now apply IH, IH.
  - now apply shr_1_nonneg.
Qed.

Lemma shr_fexp_nonneg (m e : Z) (l : location) :
  0 <= m -> 0 <= shr_m (fst (shr_fexp prec emax m e l)).
Proof.
  intros H. unfold shr_fexp, shr.
  assert (K : 0 <= shr_m (shr_record_of_loc m l)).
  { destruct l as [|[]]; exact H. }
  destruct (fexp prec emax (Zdigits2 m + e) - e); simpl; auto.
  now apply iter_shr_1_nonneg.
Qed.

Lemma round_nearest_even_nonneg (m : Z) (l : location) :
  0 <= m -> 0 <= round_nearest_even m l.
Proof.
  intros H. destruct l as [|[]]; simpl; try lia. destruct (Z.even m); lia.
Qed.

(** Rounding a non-negative mantissa never yields a NaN. *)
Lemma binary_round_aux_not_nan (sx : bool) (mx ex : Z) (lx : location) :
  0 <= mx -> binary_round_aux prec emax sx mx ex lx <> S754_nan.
Proof.
  intros H. unfold binary_round_aux.
  pose proof (shr_fexp_nonneg mx ex lx H) as H1.
  destruct (shr_fexp prec emax mx ex lx) as [mrs' e']. simpl in H1.
  pose proof (shr_fexp_nonneg _ e' loc_Exact
                (round_nearest_even_nonneg _ (loc_of_shr_record mrs') H1)) as H2.
  destruct (shr_fexp prec emax _ e' loc_Exact) as [mrs'' e'']. simpl in H2.
  destruct (shr_m mrs'') as [|p|p].
  - discriminate.
  - destruct (e'' <=? emax - prec); discriminate.
  - lia.
Qed.

Lemma binary_normalize_not_nan (m e : Z) (sz : bool) :
  binary_normalize prec emax m e sz <> S754_nan.
Proof.
  unfold binary_normalize, binary_round.
  destruct m as [|p|p]; [discriminate| |];
    destruct (shl_align _ _ _) as [mz ez];
    apply binary_round_aux_not_nan; lia.
Qed.

(** A quotient of numbers is a NaN only when the divisor is a zero. *)
Lemma SFdiv_not_nan (x y : spec_float) :
  is_number x = true -> is_number y = true -> is_zero y = false ->
  SFdiv prec emax x y <> S754_nan.
Proof.
  destruct x as [sx|sx| |sx mx ex]; destruct y as [sy|sy| |sy my ey];
    simpl; try discriminate; intros _ _ _.
  unfold SFdiv_core_binary.
  set (m' := match _ - _ - _ with Z0 => _ | Zpos _ => _ | Zneg _ => _ end).
  assert (Hm : 0 <= m').
  { subst m'. destruct (_ - _ - _); try lia. apply Z.shiftl_nonneg. lia. }
  pose proof (Z.div_pos m' (Zpos my) Hm ltac:(lia)) as Hq.
  unfold Z.div in Hq. destruct (Z.div_eucl m' (Z.pos my)) as [q r].
  now apply binary_round_aux_not_nan.
Qed.

Lemma SFsub_not_nan (x y : spec_float) :
  is_number x = true -> y <> S754_nan -> SFsub prec emax x y <> S754_nan.
Proof.
  destruct x as [sx|sx| |sx mx ex]; destruct y as [sy|sy| |sy my ey];
    simpl; try discriminate; try congruence; intros _ _.
  - destruct sx, sy; discriminate.
  - apply binary_normalize_not_nan.
Qed.

End Rounding.

Lemma count_spans_exact : forallb exact_int count_spans = true.
Proof. vm_compute. reflexivity. Qed.

(** The difference of two counts converts to a number, which is a zero
    only for a zero difference. *)
Lemma of_int_span (z : Z) :
  -1023 <= z <= 1023 ->
  is_number (binary_normalize prec32 emax32 z 0 false) = true
  /\ (z <> 0 -> is_zero (binary_normalize prec32 emax32 z 0 false) = false).
Proof.
  intros Hz. pose proof count_spans_exact as H.
  rewrite forallb_forall in H. specialize (H z).
  assert (Hin : In z count_spans).
  { unfold count_spans. apply in_map_iff. exists (Z.to_nat (z + 1023)).
    split; [lia | apply in_seq; lia]. }
  specialize (H Hin). unfold exact_int in H. cbv zeta in H.
  apply andb_true_iff in H as [H1 H2]. split; [exact H1|].
  intros Nz. apply Bool.eqb_prop in H2. rewrite H2. now apply Z.eqb_neq.
Qed.

(** Whatever is not a NaN is clamped into [[0.0, 1.0]]. *)
Lemma clamp01_range (u : spec_float) :
  u <> S754_nan ->
  SFleb (S754_zero false) (clamp01 u) = true
  /\ SFleb (clamp01 u) (S754_finite false 8388608 (-23)) = true.
Proof.
  intros Hu. unfold clamp01.
  destruct u as [s|s| |s m e]; [destruct s; split; reflexivity
                                |destruct s; split; reflexivity
                                |contradiction|].
  destruct s; [split; reflexivity|].
  change (SFltb (S754_finite false m e) (S754_zero false)) with false.
  cbv iota.
  destruct (SFltb (S754_finite false 8388608 (-23)) (S754_finite false m e))
    eqn:L; [split; reflexivity|].
  split; [reflexivity|].
  unfold SFltb, SFleb, SFcompare in *.
  rewrite (Z.compare_antisym (-23) e).
  change (Pos.compare_cont Eq m 8388608)
    with (Pos.compare_cont (CompOpp Eq) m 8388608).
  rewrite <- (Pos.compare_cont_antisym 8388608 m Eq).
  destruct (-23 ?= e); cbn [CompOpp] in *; try reflexivity; try discriminate.
  destruct (Pos.compare_cont Eq 8388608 m); cbn [CompOpp] in *;
    try reflexivity; discriminate.
Qed.

Section Binary32.

Variable libm_log : spec_float -> spec_float.

(** C8, and where the sketch falls short of it.  With equal calibration
    counts [normalizeADC] divides 0.0 by 0.0 in binary32: the quotient is a
    NaN, both clamps compare false on it, and the function returns the NaN
    for every raw sample. *)
Theorem normalizeADC_degenerate (cfg : Config spec_float) (raw : Z) :
  ANALOG_MIN_COUNTS cfg = ANALOG_MAX_COUNTS cfg ->
  @normalizeADC _ (binary32 libm_log) cfg raw = S754_nan.
Proof.
  intros E. unfold normalizeADC. cbv zeta. rewrite E.
  assert (K : (if ANALOG_MAX_COUNTS cfg <?
                 (if raw <? ANALOG_MAX_COUNTS cfg
                  then ANALOG_MAX_COUNTS cfg else raw)
               then ANALOG_MAX_COUNTS cfg
               else if raw <? ANALOG_MAX_COUNTS cfg
                    then ANALOG_MAX_COUNTS cfg else raw)
              = ANALOG_MAX_COUNTS cfg).
  { destruct (Z.ltb_spec raw (ANALOG_MAX_COUNTS cfg));
      [rewrite Z.ltb_irrefl; reflexivity|].
    destruct (Z.ltb_spec (ANALOG_MAX_COUNTS cfg) raw); lia. }
  rewrite K, Z.sub_diag.
  destruct (ANALOG_REVERSED cfg); reflexivity.
Qed.

(** That is the one calibration it does not survive: with two different
    counts of the 10-bit converter, inverted or not, the result is a
    binary32 number from 0.0 to 1.0, for every raw sample. *)
Lemma normalizeADC_binary32_range (cfg : Config spec_float) (raw : Z) :
  0 <= ANALOG_MIN_COUNTS cfg <= 1023 ->
  0 <= ANALOG_MAX_COUNTS cfg <= 1023 ->
  ANALOG_MIN_COUNTS cfg <> ANALOG_MAX_COUNTS cfg ->
  SFleb (S754_zero false) (@normalizeADC _ (binary32 libm_log) cfg raw) = true
  /\ SFleb (@normalizeADC _ (binary32 libm_log) cfg raw)
           (S754_finite false 8388608 (-23)) = true.
Proof.
  intros Hlo Hhi Hne. unfold normalizeADC. cbv zeta.
  set (raw' := if ANALOG_MAX_COUNTS cfg <? _ then _ else _).
  assert (Hn : -1023 <= raw' - ANALOG_MIN_COUNTS cfg <= 1023).
  { subst raw'. destruct (Z.ltb_spec raw (ANALOG_MIN_COUNTS cfg));
      match goal with |- context [?a <? ?b] => destruct (Z.ltb_spec a b) end;
      lia. }
  rewrite (int16_small (raw' - _)) by lia.
  rewrite (int16_small (ANALOG_MAX_COUNTS cfg - _)) by lia.
  destruct (of_int_span _ Hn) as [Nx _].
  destruct (of_int_span (ANALOG_MAX_COUNTS cfg - ANALOG_MIN_COUNTS cfg)
              ltac:(lia)) as [Ny Zy].
  specialize (Zy ltac:(lia)).
  pose proof (SFdiv_not_nan prec32 emax32 _ _ Nx Ny Zy) as Hu.
  change (@of_int _ (binary32 libm_log)) with
    (fun z => binary_normalize prec32 emax32 z 0 false).
  change (@fdiv _ (binary32 libm_log)) with (SFdiv prec32 emax32).
  change (@fsub _ (binary32 libm_log)) with (SFsub prec32 emax32).
  change (@flt _ (binary32 libm_log)) with SFltb.
  cbv beta.
  set (u := SFdiv prec32 emax32 _ _) in *.
  set (v := if ANALOG_REVERSED cfg then _ else u).
  assert (Hv : v <> S754_nan).
  { subst v. destruct (ANALOG_REVERSED cfg); [|exact Hu].
    apply SFsub_not_nan; [reflexivity | exact Hu]. }
  exact (clamp01_range v Hv).
Qed.

(** The calibration scenario of the sketch in binary32: 10 counts read 0.0,
    1010 counts read 1.0, and 5 counts are clamped to 0.0. *)
Lemma normalizeADC_binary32_scenario :
  let cfg := @default_config _ (binary32 libm_log) in
  @normalizeADC _ (binary32 libm_log) cfg 10 = S754_zero false
  /\ @normalizeADC _ (binary32 libm_log) cfg 1010
     = S754_finite false 8388608 (-23)
  /\ @normalizeADC _ (binary32 libm_log) cfg 5 = S754_zero false.
Proof. repeat split; vm_compute; reflexivity. Qed.

End Binary32.

(** ** The theorems at work on the bench *)


Lemma drive_enable_rule_witness :
  reachable bench power_up
  /\ armed power_up = false
  /\ enablePin (loop bench power_up (floored 300)) = HIGH
  /\ stepper (loop bench power_up (floored 300))
     = stop (F := R) (stepper power_up).
Proof.
  assert (R : reachable bench power_up) by apply reachable_setup.
  destruct (drive_enable_rule bench power_up (floored 300) R) as (_ & U & _).
  destruct (U eq_refl) as [P Q].
  repeat split; assumption.
Defined.


Lemma armed_is_permanent_witness :
  armed pedal_down = true
  /\ armed (iterate bench pedal_down [floored 820; rest 5000; rest 90000]) = true.
Proof.
  destruct pedal_down_facts as (_ & (E & _) & _).
  split; [exact E|].
  apply (armed_is_permanent bench pedal_down [floored 820; rest 5000; rest 90000]).
  exact E.
Defined.


Lemma normalizeADC_degenerate_witness :
  let cfg := calibrated 500 500 (@default_config _ (binary32 (fun x => x))) in
  ANALOG_MIN_COUNTS cfg = ANALOG_MAX_COUNTS cfg
  /\ @normalizeADC _ (binary32 (fun x => x)) cfg 500 = S754_nan.
Proof.
  split; [reflexivity|].
  apply (normalizeADC_degenerate (fun x => x)). reflexivity.
Defined.


Lemma idle_iteration_frame_witness :
  armed pedal_down = true
  /\ usub (millis (floored 819)) (lastControlUpdate pedal_down)
     < controlInterval bench
  /\ writes (loop bench pedal_down (floored 819))
     = (LED_PIN, LOW) :: writes pedal_down
  /\ disableStart (loop bench pedal_down (floored 819)) = disableStart pedal_down
  /\ virtualPos (loop bench pedal_down (floored 819)) = virtualPos pedal_down
  /\ lastControlUpdate (loop bench pedal_down (floored 819)) = 810.
Proof.
  destruct pedal_down_facts as (_ & (E & Et & _) & _).
  assert (H : usub (millis (floored 819)) (lastControlUpdate pedal_down)
              < controlInterval bench) by (rewrite Et; reflexivity).
  destruct (idle_iteration_frame bench pedal_down (floored 819) E H)
    as (W & _ & D & V & T & _).
  split; [exact E|]. split; [exact H|]. split; [exact W|].
  split; [exact D|]. split; [exact V|]. now rewrite T.
Defined.

(** ** Where the sketch departs from the specification *)

(** C2 does not hold as stated.  The state right after the first control
    tick that follows arming is reachable and armed, the tick classified
    STOP, the disable-hold timer has only just started, and yet the drive
    is disabled: arming writes nothing to ENABLE, and a STOP tick never
    enables. *)
Lemma drive_disabled_after_arming :
  let s := armed_at_rest in
  let i := rest 810 in
  let s' := loop bench s i in
  reachable bench s' /\ armed s' = true /\ zone bench s i = STOP
  /\ elapsed bench s i = false /\ elapsed bench s' i = false
  /\ enablePin s' = HIGH
  /\ ~ (enablePin s' = LOW <->
        armed s' = true
        /\ (zone bench s i <> STOP
            \/ (zone bench s i = STOP /\ elapsed bench s' i = false))).
Proof.
  cbv zeta.
  destruct armed_at_rest_facts as (R & _).
  pose proof first_tick_at_rest as T. cbv zeta in T.
  destruct T as (_ & Z & E' & Hd & _ & P & _).
  assert (El : elapsed bench (loop bench armed_at_rest (rest 810)) (rest 810)
               = false).
  { unfold elapsed. rewrite Hd. reflexivity. }
  split; [now apply reachable_loop|].
  split; [exact E'|]. split; [exact Z|]. split; [reflexivity|].
  split; [exact El|]. split; [exact P|].
  intros [_ K].
  assert (Q : enablePin (loop bench armed_at_rest (rest 810)) = LOW)
    by (apply K; split; [exact E'|right; now split]).
  congruence.
Qed.


(** ** More of the sketch: what [setup] fixes and what [loop] keeps *)

Section Keeping.

Context {F S A : Type}.
Context `{FL : CFloat F} `{ST : AccelStepper F S} `{RA : RunningAverage F A}.
Variable cfg : Config F.

Abbreviation State := (State F S A).

(** What the arming branch leaves alone. *)
Lemma loop_unarmed_frame (s : State) (i : Input) :
  armed s = false ->
  disableStart (loop cfg s i) = disableStart s
  /\ lastControlUpdate (loop cfg s i) = lastControlUpdate s
  /\ virtualPos (loop cfg s i) = virtualPos s.
Proof.
  intros E. rewrite (loop_unarmed cfg s i E). unfold arming. cbv zeta.
  match goal with |- context [updateLED ?n ?r ?h ?d ?x] =>
    destruct (updateLED_led_only n r h d x) as (_ & _ & -> & -> & -> & _) end.
  simpl.
  destruct (analogRead i <=? _);
    [destruct (armStart s =? 0); [|destruct (_ <=? _)]|]; repeat split.
Qed.

Lemma unarmed_is_idle_aux (s : State) :
  reachable cfg s -> armed s = false ->
  disableStart s = 0 /\ lastControlUpdate s = 0.
Proof.
  induction 1 as [m a l|s i R IH]; intros E.
  - split; reflexivity.
  - destruct (armed s) eqn:Es.
    { rewrite (loop_keeps_armed cfg s i Es) in E. discriminate. }
    destruct (loop_unarmed_frame s i Es) as (-> & -> & _). now apply IH.
Qed.

(** X2. Until it is armed the controller has done nothing but wait: in
    every reachable unarmed state the drive is disabled, the disable-hold
    timer and the control-tick timer are still unset, the position
    accumulator is still 0.0, and the LED shows the blink toggle. *)
Theorem unarmed_is_idle (s : State) :
  reachable cfg s -> armed s = false ->
  enablePin s = HIGH
  /\ disableStart s = 0
  /\ lastControlUpdate s = 0
  /\ virtualPos s = of_int 0
  /\ ledPin s = level_of_bool (ledState s).
Proof.
  induction 1 as [m a l|s i R IH]; intros E.
  - repeat split; reflexivity.
  - destruct (armed s) eqn:Es.
    { rewrite (loop_keeps_armed cfg s i Es) in E. discriminate. }
    destruct (IH eq_refl) as (_ & Hd & Ht & Hv & Hl).
    destruct (loop_unarmed_disables cfg s i Es) as [Hp _].
    destruct (loop_unarmed_frame s i Es) as (-> & -> & ->).
    split; [exact Hp|]. split; [exact Hd|]. split; [exact Ht|].
    split; [exact Hv|].
    pose proof (unarmed_led cfg s i E) as T. unfold toggled in T.
    destruct (500 <=? usub (millis i) (lastLED s)).
    + destruct T as (-> & _ & ->). reflexivity.
    + destruct T as (-> & _ & ->). exact Hl.
Qed.

(** X3. The iteration after the one that arms is a control tick as soon as
    the clock has passed one control interval: arming leaves the tick timer
    at 0, the drive disabled and the disable-hold timer unset. *)
Theorem first_armed_iteration (s : State) (i j : Input) :
  reachable cfg s -> armed s = false -> armed (loop cfg s i) = true ->
  controlInterval cfg <= ulong (millis j) ->
  due cfg (loop cfg s i) j = true
  /\ enablePin (loop cfg s i) = HIGH
  /\ disableStart (loop cfg s i) = 0
  /\ stepper (loop cfg s i) = stop (stepper s).
Proof.
  intros R E E' Hj.
  destruct (unarmed_is_idle_aux s R E) as (Hd & Ht).
  destruct (loop_unarmed_disables cfg s i E) as [Hp Hs].
  destruct (loop_unarmed_frame s i E) as (Hd' & Ht' & _).
  split; [|split; [exact Hp|split; [congruence|exact Hs]]].
  unfold due. rewrite Ht', Ht. unfold usub. rewrite Z.sub_0_r.
  now apply Z.leb_le.
Qed.

Lemma loop_hold_frame (s : State) (i : Input) :
  armed s = true -> due cfg s i = true -> zone cfg s i = HOLD ->
  stepper (loop cfg s i)
    = run (moveTo (currentPosition (stepper s)) (stepper s))
  /\ virtualPos (loop cfg s i) = virtualPos s.
Proof.
  intros E D Z. rewrite (loop_hold cfg s i E D Z). cbv zeta.
  match goal with |- context [updateLED ?n ?r ?h ?d ?x] =>
    destruct (updateLED_led_only n r h d x)
      as (_ & _ & _ & _ & -> & -> & _) end.
  split; reflexivity.
Qed.

(** X4. A control tick in the HOLD zone locks the needle: the drive is
    enabled, the stepper's target is its own current position, the
    disable-hold timer is unset, and the position accumulator is left as it
    is. *)
Theorem hold_tick_locks (s : State) (i : Input) :
  armed s = true -> due cfg s i = true -> zone cfg s i = HOLD ->
  let s' := loop cfg s i in
  enablePin s' = LOW
  /\ stepper s' = run (moveTo (currentPosition (stepper s)) (stepper s))
  /\ disableStart s' = 0
  /\ virtualPos s' = virtualPos s
  /\ lastControlUpdate s' = millis i.
Proof.
  intros E D Z s'. subst s'.
  destruct (loop_leaving_stop cfg s i E D) as [Hd Hp]; [congruence|].
  destruct (loop_hold_frame s i E D Z) as [Hs Hv].
  pose proof (loop_tick_time cfg s i E) as Ht. rewrite D in Ht.
  repeat split; assumption.
Qed.

Lemma loop_virtualPos_frame (s : State) (i : Input) :
  ~ throttle_tick cfg s i -> virtualPos (loop cfg s i) = virtualPos s.
Proof.
  intros N. destruct (armed s) eqn:E.
  - destruct (due cfg s i) eqn:D.
    + destruct (zone cfg s i) eqn:Z.
      * now apply loop_stop_virtualPos.
      * now destruct (loop_hold_frame s i E D Z).
      * exfalso. apply N. repeat split; assumption.
    + now rewrite (loop_idle cfg s i E D).
  - now destruct (loop_unarmed_frame s i E).
Qed.

(** X5. Only a THROTTLE tick moves the position accumulator: any other
    iteration (unarmed, between ticks, STOP or HOLD tick, also the tick
    that disables the drive) leaves it at its old value, so after a stop
    the next THROTTLE tick resumes from where the accumulator was. *)
Theorem accumulator_only_moves_in_throttle (s : State) (l : list Input) :
  along cfg (fun u i => ~ throttle_tick cfg u i) s l ->
  virtualPos (iterate cfg s l) = virtualPos s.
Proof.
  revert s. induction l as [|i l IH]; intros s Hl; simpl in *.
  - reflexivity.
  - destruct Hl as [Hi Hl]. rewrite (IH _ Hl).
    now apply loop_virtualPos_frame.
Qed.

(** X6. A time stamp of 0 reads as "unset": a released sample taken at
    [millis() = 0] does not start the arm hold, and a STOP tick at
    [millis() = 0] does not start the disable hold; the timer is still
    unset afterwards and the hold starts over at the next sample. *)
Theorem zero_stamp_is_unset (s : State) (i : Input) :
  millis i = 0 ->
  (armed s = false -> armStart s = 0 -> released cfg i = true ->
   armed (loop cfg s i) = false /\ armStart (loop cfg s i) = 0)
  /\ (armed s = true -> due cfg s i = true -> zone cfg s i = STOP ->
      disableStart s = 0 ->
      disableStart (loop cfg s i) = 0
      /\ enablePin (loop cfg s i) = enablePin s).
Proof.
  intros Hm. split.
  - intros E E0 Ri. destruct (loop_arming cfg s i E) as (_ & Hstart & _).
    destruct (Hstart Ri E0) as [Ha Hs]. split; congruence.
  - intros E D Z E0. destruct (loop_in_stop cfg s i E D Z) as (Ha & _).
    destruct (Ha E0) as (Hd & Hp & _). split; congruence.
Qed.

Lemma held_released_weaken (d d' : Z) (l : list Input) :
  d' <= d -> held_released cfg d l -> held_released cfg d' l.
Proof.
  intros Hd (l1 & a & mid & b & l2 & E & O & Ra & Rm & Rb & H).
  exists l1, a, mid, b, l2. repeat split; try assumption. lia.
Qed.

(** X7. The 250 ms floor cannot be configured away: whatever
    [ARM_DELAY_MS] is set to, also negative or too large for an [int], the
    hold threshold lies between 250 and 32767 ms, and the controller is
    never armed before the pedal has been held released for 250 ms. *)
Theorem arm_floor_any_config (s : State) (l : list Input) :
  armed s = false -> armStart s = 0 ->
  Forall (fun i => millis i <> 0) l ->
  250 <= armHold cfg < 32768
  /\ (armed (iterate cfg s l) = true -> held_released cfg 250 l).
Proof.
  intros E E0 Hm.
  assert (Hf : 250 <= armHold cfg < 32768).
  { unfold armHold. pose proof (int16_range (ARM_DELAY_MS cfg)).
    rewrite ulong_small; lia. }
  split; [exact Hf|]. intros Ea.
  destruct (arming_invariant cfg s l E E0 Hm) as [[_ Hh] | (Ea' & _)].
  - apply (held_released_weaken (armHold cfg)); [lia | exact Hh].
  - congruence.
Qed.

(** X8. A delay too large for the 16-bit [int] it is cast to is cut short:
    with [ARM_DELAY_MS] from 32768 to 65785 the cast wraps to a value below
    250, the threshold is 250 ms, and the controller is armed exactly when
    the pedal has been held released for 250 ms. *)
Theorem arm_delay_wraps (s : State) (l : list Input) :
  32768 <= ARM_DELAY_MS cfg < 65786 ->
  armed s = false -> armStart s = 0 ->
  Forall (fun i => millis i <> 0) l ->
  armHold cfg = 250
  /\ (armed (iterate cfg s l) = true <-> held_released cfg 250 l).
Proof.
  intros Hr E E0 Hm.
  assert (Hh : armHold cfg = 250).
  { unfold armHold, int16.
    replace (ARM_DELAY_MS cfg + 32768)
      with (ARM_DELAY_MS cfg - 32768 + 1 * 65536) by lia.
    rewrite Z.mod_add by lia. rewrite Z.mod_small by lia.
    rewrite ulong_small; lia. }
  split; [exact Hh|]. rewrite <- Hh.
  destruct (arming_invariant cfg s l E E0 Hm) as [[Ea Hl] | (Ea & Nh & _)].
  - split; auto.
  - split; [congruence | contradiction].
Qed.

End Keeping.

(** ** The reading over the reals, as a quotient *)

Section Calibration.

Context {S A : Type}.
Context `{ST : AccelStepper R S} `{RA : RunningAverage R A}.
Variable cfg : Config R.

Local Open Scope R_scope.

(** The raw sample after the two integer clamps of [normalizeADC]. *)
Lemma clamped_raw (raw : Z) :
  (ANALOG_MIN_COUNTS cfg < ANALOG_MAX_COUNTS cfg)%Z ->
  (if ANALOG_MAX_COUNTS cfg <?
      (if raw <? ANALOG_MIN_COUNTS cfg then ANALOG_MIN_COUNTS cfg else raw)
   then ANALOG_MAX_COUNTS cfg
   else if raw <? ANALOG_MIN_COUNTS cfg then ANALOG_MIN_COUNTS cfg else raw)%Z
  = Z.max (ANALOG_MIN_COUNTS cfg) (Z.min raw (ANALOG_MAX_COUNTS cfg)).
Proof.
  intros Hlt.
  destruct (Z.ltb_spec raw (ANALOG_MIN_COUNTS cfg));
    match goal with |- context [(?a <? ?b)%Z] => destruct (Z.ltb_spec a b) end;
    lia.
Qed.

Lemma normalizeADC_exact_linear (raw : Z) :
  (ANALOG_MIN_COUNTS cfg < ANALOG_MAX_COUNTS cfg)%Z ->
  (ANALOG_MAX_COUNTS cfg - ANALOG_MIN_COUNTS cfg < 32768)%Z ->
  let c := Z.max (ANALOG_MIN_COUNTS cfg) (Z.min raw (ANALOG_MAX_COUNTS cfg)) in
  let u := IZR (c - ANALOG_MIN_COUNTS cfg)
           / IZR (ANALOG_MAX_COUNTS cfg - ANALOG_MIN_COUNTS cfg) in
  0 <= u <= 1
  /\ normalizeADC cfg raw = if ANALOG_REVERSED cfg then 1 - u else u.
Proof.
  intros Hlt Hr c u.
  assert (Hc : (ANALOG_MIN_COUNTS cfg <= c <= ANALOG_MAX_COUNTS cfg)%Z)
    by (subst c; lia).
  assert (Hd : 0 < IZR (ANALOG_MAX_COUNTS cfg - ANALOG_MIN_COUNTS cfg))
    by (apply IZR_lt; lia).
  assert (Hn : 0 <= IZR (c - ANALOG_MIN_COUNTS cfg)
               <= IZR (ANALOG_MAX_COUNTS cfg - ANALOG_MIN_COUNTS cfg))
    by (split; apply IZR_le; lia).
  assert (Hu : 0 <= u <= 1).
  { subst u. split.
    - apply Rmult_le_pos; [lra | left; now apply Rinv_0_lt_compat].
    - apply Rmult_le_reg_r with (IZR (ANALOG_MAX_COUNTS cfg - ANALOG_MIN_COUNTS cfg));
        [exact Hd|]. unfold Rdiv. rewrite Rmult_assoc, Rinv_l by lra. lra. }
  split; [exact Hu|].
  unfold normalizeADC. cbv zeta. rewrite (clamped_raw raw Hlt). fold c.
  rewrite (int16_small (c - _)) by lia.
  rewrite (int16_small (ANALOG_MAX_COUNTS cfg - _)) by lia.
  simpl of_int. simpl fdiv. fold u.
  destruct (ANALOG_REVERSED cfg); simpl.
  - destruct (Rlt_dec (1 - u) 0); [lra|].
    destruct (Rlt_dec 1 (1 - u)); [lra|reflexivity].
  - destruct (Rlt_dec u 0); [lra|].
    destruct (Rlt_dec 1 u); [lra|reflexivity].
Qed.

End Calibration.

(** ** More of [normalizeADC] in binary32 *)

Lemma count_spans_unit_quotient :
  forallb (fun z => (z =? 0) || unit_quotient z) count_spans = true.
Proof. vm_compute. reflexivity. Qed.

Lemma span_unit_quotient (z : Z) :
  -1023 <= z <= 1023 -> z <> 0 ->
  SFdiv prec32 emax32 (binary_normalize prec32 emax32 z 0 false)
                      (binary_normalize prec32 emax32 z 0 false)
  = S754_finite false 8388608 (-23).
Proof.
  intros Hz Nz. pose proof count_spans_unit_quotient as H.
  rewrite forallb_forall in H. specialize (H z).
  assert (Hin : In z count_spans).
  { unfold count_spans. apply in_map_iff. exists (Z.to_nat (z + 1023)).
    split; [lia | apply in_seq; lia]. }
  specialize (H Hin). apply orb_true_iff in H as [H|H].
  - apply Z.eqb_eq in H. contradiction.
  - unfold unit_quotient in H.
    destruct (SFdiv _ _ _ _) as [| | |sg m e]; try discriminate.
    destruct sg; [discriminate|].
    apply andb_true_iff in H as [Hm He].
    apply Pos.eqb_eq in Hm. apply Z.eqb_eq in He. now subst.
Qed.

Section Binary32Calibration.

Variable libm_log : spec_float -> spec_float.

(** X13. A calibration with two different counts of the 10-bit converter,
    inverted or not, always gives a reading: for every raw sample the
    binary32 result is a number from 0.0 to 1.0, never a NaN. *)
Theorem calibration_gives_reading (cfg : Config spec_float) (raw : Z) :
  0 <= ANALOG_MIN_COUNTS cfg <= 1023 ->
  0 <= ANALOG_MAX_COUNTS cfg <= 1023 ->
  ANALOG_MIN_COUNTS cfg <> ANALOG_MAX_COUNTS cfg ->
  @normalizeADC _ (binary32 libm_log) cfg raw <> S754_nan
  /\ SFleb (S754_zero false) (@normalizeADC _ (binary32 libm_log) cfg raw) = true
  /\ SFleb (@normalizeADC _ (binary32 libm_log) cfg raw)
           (S754_finite false 8388608 (-23)) = true.
Proof.
  intros Hlo Hhi Hne.
  destruct (normalizeADC_binary32_range libm_log cfg raw Hlo Hhi Hne) as [H0 H1].
  split; [|now split].
  intros E. rewrite E in H0. discriminate.
Qed.

(** X14. An inverted calibration (rest count above full count) no longer
    follows the pedal: whatever the raw sample, the reading is 1.0, full
    pedal, or 0.0 for a reversed pedal. *)
Theorem inverted_calibration_is_constant (cfg : Config spec_float) (raw : Z) :
  0 <= ANALOG_MAX_COUNTS cfg ->
  ANALOG_MAX_COUNTS cfg < ANALOG_MIN_COUNTS cfg ->
  ANALOG_MIN_COUNTS cfg <= 1023 ->
  @normalizeADC _ (binary32 libm_log) cfg raw =
  if ANALOG_REVERSED cfg then S754_zero false
  else S754_finite false 8388608 (-23).
Proof.
  intros Hlo Hlt Hhi. unfold normalizeADC. cbv zeta.
  assert (K : (if ANALOG_MAX_COUNTS cfg <?
                 (if raw <? ANALOG_MIN_COUNTS cfg
                  then ANALOG_MIN_COUNTS cfg else raw)
               then ANALOG_MAX_COUNTS cfg
               else if raw <? ANALOG_MIN_COUNTS cfg
                    then ANALOG_MIN_COUNTS cfg else raw)
              = ANALOG_MAX_COUNTS cfg).
  { destruct (Z.ltb_spec raw (ANALOG_MIN_COUNTS cfg));
      match goal with |- context [?a <? ?b] => destruct (Z.ltb_spec a b) end;
      lia. }
  rewrite K. rewrite (int16_small (ANALOG_MAX_COUNTS cfg - _)) by lia.
  change (@of_int _ (binary32 libm_log)) with
    (fun z => binary_normalize prec32 emax32 z 0 false).
  change (@fdiv _ (binary32 libm_log)) with (SFdiv prec32 emax32).
  cbv beta.
  rewrite (span_unit_quotient (ANALOG_MAX_COUNTS cfg - ANALOG_MIN_COUNTS cfg))
    by lia.
  destruct (ANALOG_REVERSED cfg); reflexivity.
Qed.

End Binary32Calibration.

Lemma Rtrunc_between (x : R) (z : Z) :
  (IZR z <= x < IZR z + 1)%R -> 0 <= z -> Rtrunc x = z.
Proof.
  intros [Hl Hu] Hz. unfold Rtrunc.
  assert (H0 : (0 <= IZR z)%R) by now apply IZR_le.
  destruct (Rle_dec 0 x) as [_|N]; [|lra].
  symmetry. apply Int_part_spec. lra.
Qed.

(** ** The three timers and the roll-over of [millis()] *)

Lemma usub_after (t d : Z) :
  0 <= d < 4294967296 -> usub (ulong (t + d)) t = d.
Proof.
  intros Hd. unfold usub, ulong. rewrite Zminus_mod_idemp_l.
  replace (t + d - t) with d by lia. now apply Z.mod_small.
Qed.

Section Timers.

Context {F S A : Type}.
Context `{FL : CFloat F} `{ST : AccelStepper F S} `{RA : RunningAverage F A}.
Variable cfg : Config F.

Abbreviation State := (State F S A).

(** X9. The timers measure elapsed time across the roll-over of the
    32-bit millisecond clock: [d] ms after a time stamp, whether or not
    [millis()] has wrapped in between, the control tick is due exactly when
    [d] has reached the control interval, the disable hold has elapsed
    exactly when [d] has reached [DISABLE_DELAY_MS], and a released sample
    arms exactly when [d] has reached the arm hold. *)
Theorem timers_survive_rollover (s : State) (i : Input) (d : Z) :
  0 <= d < 4294967296 ->
  (millis i = ulong (lastControlUpdate s + d) ->
   due cfg s i = (controlInterval cfg <=? d))
  /\ (disableStart s <> 0 -> millis i = ulong (disableStart s + d) ->
      elapsed cfg s i = (ulong (DISABLE_DELAY_MS cfg) <=? d))
  /\ (armed s = false -> armStart s <> 0 -> released cfg i = true ->
      millis i = ulong (armStart s + d) ->
      armed (loop cfg s i) = (armHold cfg <=? d)).
Proof.
  intros Hd. split; [|split].
  - intros Hm. unfold due. now rewrite Hm, usub_after.
  - intros Hn Hm. unfold elapsed. rewrite Hm, usub_after by exact Hd.
    destruct (Z.eqb_spec (disableStart s) 0); [contradiction|reflexivity].
  - intros E Hn Hr Hm.
    pose proof (loop_arming cfg s i E) as K. cbv zeta in K.
    destruct K as (_ & _ & Ha & Hb).
    rewrite Hm in Ha, Hb. rewrite (usub_after _ d Hd) in Ha, Hb.
    destruct (Z.leb_spec (armHold cfg) d) as [Hle|Hlt].
    + now apply Ha.
    + now apply Hb.
Qed.

End Timers.

(** ** The rescaled input, in counts *)

Section Counts.

Context {F : Type} `{FL : CFloat F}.
Variable cfg : Config F.

(** [normalizeADC] sees the raw sample only through the two integer
    clamps. *)
Lemma normalizeADC_clamped (raw : Z) :
  ANALOG_MIN_COUNTS cfg <= ANALOG_MAX_COUNTS cfg ->
  normalizeADC cfg raw
  = normalizeADC cfg (Z.max (ANALOG_MIN_COUNTS cfg)
                        (Z.min raw (ANALOG_MAX_COUNTS cfg))).
Proof.
  intros Hle. unfold normalizeADC. cbv zeta.
  set (c := Z.max _ _).
  assert (E : (if ANALOG_MAX_COUNTS cfg <?
                 (if raw <? ANALOG_MIN_COUNTS cfg
                  then ANALOG_MIN_COUNTS cfg else raw)
               then ANALOG_MAX_COUNTS cfg
               else if raw <? ANALOG_MIN_COUNTS cfg
                    then ANALOG_MIN_COUNTS cfg else raw) = c).
  { subst c. destruct (Z.ltb_spec raw (ANALOG_MIN_COUNTS cfg));
      match goal with |- context [?a <? ?b] => destruct (Z.ltb_spec a b) end;
      lia. }
  assert (E' : (if ANALOG_MAX_COUNTS cfg <?
                  (if c <? ANALOG_MIN_COUNTS cfg
                   then ANALOG_MIN_COUNTS cfg else c)
                then ANALOG_MAX_COUNTS cfg
                else if c <? ANALOG_MIN_COUNTS cfg
                     then ANALOG_MIN_COUNTS cfg else c) = c).
  { assert (ANALOG_MIN_COUNTS cfg <= c <= ANALOG_MAX_COUNTS cfg)
      by (subst c; lia).
    destruct (Z.ltb_spec c (ANALOG_MIN_COUNTS cfg)); [lia|].
    destruct (Z.ltb_spec (ANALOG_MAX_COUNTS cfg) c); [lia|reflexivity]. }
  rewrite E, E'. reflexivity.
Qed.

End Counts.

(** ** The shipped calibration in binary32 *)

Lemma shipped_counts_rescaling (b : bool) :
  forallb (shipped_rescaling b) shipped_counts = true.
Proof. destruct b; vm_compute; reflexivity. Qed.

Lemma full_scale_counts_rescaling :
  forallb full_scale_rescaling counts = true.
Proof. vm_compute. reflexivity. Qed.

Section Binary32Counts.

Variable libm_log : spec_float -> spec_float.
Variable cfg : Config spec_float.

(** In binary32 [normalizeADC] reads three settings and no more. *)
Lemma normalizeADC_binary32_settings (lo hi raw : Z) :
  ANALOG_MIN_COUNTS cfg = lo -> ANALOG_MAX_COUNTS cfg = hi ->
  @normalizeADC _ (binary32 libm_log) cfg raw
  = @normalizeADC _ (binary32 (fun x => x))
      (pedal_reversed (ANALOG_REVERSED cfg)
         (calibrated lo hi (@default_config _ (binary32 (fun x => x))))) raw.
Proof. intros <- <-. reflexivity. Qed.

(** X16. With the shipped calibration counts the rounding of binary32
    moves no sample to another count, whichever way the pedal is wired:
    for every raw sample, [(int)(u * 1023)] computed in binary32 is the
    integer quotient that exact arithmetic gives, [n * 1023 / 1000] for the
    distance [n] of the clamped sample from the rest count, or from the
    full count for a reversed pedal; so the control update puts the pedal
    in the same zone in both. *)
Theorem shipped_calibration_rounds_nowhere (raw : Z) :
  ANALOG_MIN_COUNTS cfg = 10 -> ANALOG_MAX_COUNTS cfg = 1010 ->
  @scaledADC _ (binary32 libm_log) (@normalizeADC _ (binary32 libm_log) cfg raw)
  = (if ANALOG_REVERSED cfg
     then 1010 - Z.max 10 (Z.min raw 1010)
     else Z.max 10 (Z.min raw 1010) - 10) * 1023 / 1000.
Proof.
  intros Hlo Hhi.
  rewrite (normalizeADC_clamped (FL := binary32 libm_log) cfg raw)
    by (rewrite Hlo, Hhi; lia).
  rewrite Hlo, Hhi. set (c := Z.max 10 (Z.min raw 1010)).
  rewrite (normalizeADC_binary32_settings 10 1010 c Hlo Hhi).
  assert (Hc : In c shipped_counts).
  { unfold shipped_counts. apply in_map_iff. exists (Z.to_nat (c - 10)).
    split; [lia | apply in_seq; lia]. }
  pose proof (shipped_counts_rescaling (ANALOG_REVERSED cfg)) as H.
  rewrite forallb_forall in H. specialize (H c Hc).
  apply Z.eqb_eq in H. exact H.
Qed.

(** X23. With the counts 0 and 1023 and a reversed pedal binary32 does
    round: for every raw sample [(int)(u * 1023)] is the count [1023 - c]
    that exact arithmetic gives for the clamped sample [c], or one less,
    and it is one less for the sample 1003, which reads 19 counts and not
    20.  A zone boundary can so lie one count higher than configured,
    never lower. *)
Theorem reversed_full_scale_rounds_down (raw : Z) :
  ANALOG_MIN_COUNTS cfg = 0 -> ANALOG_MAX_COUNTS cfg = 1023 ->
  ANALOG_REVERSED cfg = true ->
  1023 - Z.max 0 (Z.min raw 1023) - 1
  <= @scaledADC _ (binary32 libm_log)
       (@normalizeADC _ (binary32 libm_log) cfg raw)
  <= 1023 - Z.max 0 (Z.min raw 1023)
  /\ @scaledADC _ (binary32 libm_log)
       (@normalizeADC _ (binary32 libm_log) cfg 1003) = 19.
Proof.
  intros Hlo Hhi Hrev. split.
  - rewrite (normalizeADC_clamped (FL := binary32 libm_log) cfg raw)
      by (rewrite Hlo, Hhi; lia).
    rewrite Hlo, Hhi. set (c := Z.max 0 (Z.min raw 1023)).
    rewrite (normalizeADC_binary32_settings 0 1023 c Hlo Hhi), Hrev.
    assert (Hc : In c counts).
    { unfold counts. apply in_map_iff. exists (Z.to_nat c).
      split; [lia | apply in_seq; lia]. }
    pose proof full_scale_counts_rescaling as H.
    rewrite forallb_forall in H. specialize (H c Hc).
    unfold full_scale_rescaling in H. cbv zeta in H.
    assert (K : 1023 - c - 1
                <= @scaledADC _ (binary32 (fun x => x))
                     (@normalizeADC _ (binary32 (fun x => x))
                        (pedal_reversed true
                           (calibrated 0 1023
                              (@default_config _ (binary32 (fun x => x))))) c)
                <= 1023 - c)
      by (apply orb_true_iff in H as [H|H]; apply Z.eqb_eq in H; lia).
    exact K.
  - rewrite (normalizeADC_binary32_settings 0 1023 1003 Hlo Hhi), Hrev.
    vm_compute. reflexivity.
Qed.

End Binary32Counts.

(** ** The two-zone sketch against the three-zone sketch *)

Section TwoZoneControl.

Context {F S A : Type}.
Context `{FL : CFloat F} `{FT : CFloatTests F}.
Context `{ST : AccelStepper F S} `{RA : RunningAverage F A}.
Variable cfg : Config F.

Abbreviation State := (State F S A).

(** The LED of the two-zone sketch is the LED of the three-zone sketch
    with [inHold] never set. *)
Lemma two_zone_updateLED (now : Z) (running inDeadband : bool) (s : State) :
  TwoZone.updateLED now running inDeadband s
  = updateLED now running false inDeadband s.
Proof. reflexivity. Qed.

Lemma two_zone_arming (now rawADC : Z) (s : State) :
  TwoZone.arming cfg now rawADC s = arming cfg now rawADC s.
Proof. reflexivity. Qed.

(** While unarmed the two sketches run the same code. *)
Lemma two_zone_loop_unarmed (s : State) (i : Input) :
  armed s = false -> TwoZone.loop cfg s i = loop cfg s i.
Proof.
  intros E. unfold TwoZone.loop, loop. cbv zeta.
  cbn [armed set_filter]. rewrite E. reflexivity.
Qed.

(** The two shapes of an armed iteration. *)
Lemma two_zone_loop_idle (s : State) (i : Input) :
  armed s = true -> due cfg s i = false ->
  TwoZone.loop cfg s i = loop cfg s i.
Proof.
  intros E D. rewrite (loop_idle cfg s i E D).
  unfold TwoZone.loop, due in *. simpl. rewrite E. simpl. rewrite D.
  unfold TwoZone.updateLED. simpl. now rewrite E.
Qed.

Lemma two_zone_loop_tick (s : State) (i : Input) :
  armed s = true -> due cfg s i = true ->
  TwoZone.loop cfg s i =
  let s0 := ticked s i in
  let u := TwoZone.deadbanded cfg s i in
  if feq u (of_int 0) then
    let s1 :=
      if disableStart s =? 0 then set_disableStart (millis i) s0
      else if ulong (DISABLE_DELAY_MS cfg) <=? usub (millis i) (disableStart s)
           then set_stepper (stop (stepper s)) (digitalWrite ENABLE_PIN HIGH s0)
           else s0 in
    updateLED (millis i) false false true (set_stepper (run (stepper s1)) s1)
  else
    let v :=
      fadd (virtualPos s)
        (fdiv (fmul (applyCurve cfg u) (of_int (MAX_SPEED_SPS cfg)))
              (of_int (CONTROL_HZ cfg))) in
    let m :=
      moveTo (to_long v)
        (setAcceleration (of_int (MAX_ACCEL_SPS2 cfg))
           (setMaxSpeed (of_int (MAX_SPEED_SPS cfg)) (stepper s))) in
    let s1 :=
      set_stepper m
        (set_virtualPos v
           (digitalWrite ENABLE_PIN LOW (set_disableStart 0 (ticked s i)))) in
    updateLED (millis i) true false false (set_stepper (run (stepper s1)) s1).
Proof.
  intros E D. unfold TwoZone.loop, due in *. cbv zeta.
  cbn [armed set_filter lastControlUpdate]. rewrite E, D. cbn [negb].
  unfold TwoZone.control. cbv zeta.
  change (TwoZone.applyDeadband cfg
            (TwoZone.normalizeADC cfg
               (to_int (getAverage
                  (filter (set_filter (addValue (of_int (analogRead i))
                                         (filter s)) s))))))
    with (TwoZone.deadbanded cfg s i).
  destruct (feq (TwoZone.deadbanded cfg s i) (of_int 0)).
  - cbn [disableStart set_lastControlUpdate set_filter].
    destruct (disableStart s =? 0); [reflexivity|].
    destruct (_ <=? _); reflexivity.
  - reflexivity.
Qed.

Lemma two_zone_keeps_armed (s : State) (i : Input) :
  armed s = true -> armed (TwoZone.loop cfg s i) = true.
Proof.
  intros E. destruct (due cfg s i) eqn:D.
  - rewrite (two_zone_loop_tick s i E D). cbv zeta.
    destruct (feq _ _);
      match goal with |- context [updateLED ?n ?r ?h ?d ?x] =>
        destruct (updateLED_led_only n r h d x) as (-> & _) end.
    + cbn [armed set_stepper].
      destruct (disableStart s =? 0); [exact E|].
      destruct (_ <=? _); exact E.
    + exact E.
  - rewrite (two_zone_loop_idle s i E D). now apply loop_keeps_armed.
Qed.

Lemma two_zone_iterate_keeps_armed (l : list Input) (s : State) :
  armed s = true -> armed (TwoZone.iterate cfg s l) = true.
Proof.
  revert s. induction l as [|i l IH]; intros s E; [exact E|].
  apply IH. now apply two_zone_keeps_armed.
Qed.

(** X17. Arming did not change between the two sketches: run on the same
    samples from the same unarmed state, the two-zone sketch and the
    three-zone sketch are armed after the same iterations, and as long as
    they are unarmed they are in the same state, pin writes and LED
    included. *)
Theorem arming_same_in_both_sketches (s : State) (l : list Input) :
  armed s = false ->
  armed (TwoZone.iterate cfg s l) = armed (iterate cfg s l)
  /\ (armed (iterate cfg s l) = false ->
      TwoZone.iterate cfg s l = iterate cfg s l).
Proof.
  revert s. induction l as [|i l IH]; intros s E.
  - split; reflexivity.
  - simpl. rewrite (two_zone_loop_unarmed s i E).
    destruct (armed (loop cfg s i)) eqn:E'.
    + rewrite (two_zone_iterate_keeps_armed l _ E').
      rewrite (iterate_keeps_armed cfg l _ E'). split; [reflexivity|].
      discriminate.
    + exact (IH _ E').
Qed.

(** X18. The control tick of the two-zone sketch, on the value
    [u = applyDeadband(normalizeADC(filteredADC))]: when [u == 0.0] the
    position accumulator keeps its value, the LED shows the double pulse,
    an unset disable-hold timer is started and an elapsed one disables the
    drive and stops the stepper; otherwise the timer is unset, the drive
    enabled, the LED on, and the accumulator advanced by
    [applyCurve(u) * MAX_SPEED_SPS / CONTROL_HZ]. *)
Theorem two_zone_tick (s : State) (i : Input) :
  armed s = true -> due cfg s i = true ->
  let s' := TwoZone.loop cfg s i in
  let u := TwoZone.deadbanded cfg s i in
  lastControlUpdate s' = millis i
  /\ (feq u (of_int 0) = true ->
      virtualPos s' = virtualPos s
      /\ ledPin s' = doublePulse (millis i mod 1000)
      /\ (disableStart s = 0 ->
          disableStart s' = millis i /\ enablePin s' = enablePin s)
      /\ (elapsed cfg s i = true ->
          enablePin s' = HIGH /\ stepper s' = run (stop (stepper s))))
  /\ (feq u (of_int 0) = false ->
      disableStart s' = 0 /\ enablePin s' = LOW /\ ledPin s' = HIGH
      /\ virtualPos s'
         = fadd (virtualPos s)
             (fdiv (fmul (applyCurve cfg u) (of_int (MAX_SPEED_SPS cfg)))
                   (of_int (CONTROL_HZ cfg)))).
Proof.
  intros E D s' u. subst s' u. rewrite (two_zone_loop_tick s i E D). cbv zeta.
  destruct (feq _ _) eqn:Q.
  - set (pre := set_stepper _ _).
    assert (Ep : armed pre = true).
    { subst pre. cbn [armed set_stepper].
      destruct (disableStart s =? 0); [exact E|].
      destruct (_ <=? _); exact E. }
    pose proof (updateLED_led_only (millis i) false false true pre) as L.
    assert (El : ledPin (updateLED (millis i) false false true pre)
                 = doublePulse (millis i mod 1000)).
    { unfold updateLED. rewrite Ep. cbn [negb]. unfold doublePulse.
      destruct ((millis i mod 1000 <? 100) || _); reflexivity. }
    rewrite (led_only_enablePin _ _ L).
    destruct L as (_ & _ & Ld & Lt & Lv & Ls & _).
    rewrite Ld, Lt, Lv, Ls. subst pre. unfold elapsed.
    split; [|split; [|discriminate]].
    + cbn [lastControlUpdate set_stepper].
      destruct (disableStart s =? 0); [reflexivity|].
      destruct (_ <=? _); reflexivity.
    + intros _. split; [|split; [exact El|split]].
      * cbn [virtualPos set_stepper].
        destruct (disableStart s =? 0); [reflexivity|].
        destruct (_ <=? _); reflexivity.
      * intros E0. rewrite E0. cbn. split; reflexivity.
      * intros He. apply andb_true_iff in He as [Hn Hd].
        apply negb_true_iff in Hn. rewrite Hn, Hd. split; reflexivity.
  - match goal with |- context [updateLED ?n ?r ?h ?d ?x] =>
      pose proof (updateLED_led_only n r h d x) as L;
      assert (El : ledPin (updateLED n r h d x) = HIGH)
        by (unfold updateLED; cbn [armed set_stepper set_virtualPos
                                   digitalWrite set_disableStart ticked
                                   set_lastControlUpdate set_filter];
            rewrite E; reflexivity);
      rewrite (led_only_enablePin _ _ L), El;
      destruct L as (_ & _ & -> & -> & -> & _) end.
    split; [reflexivity|]. split; [discriminate|]. intros _.
    repeat split; reflexivity.
Qed.

End TwoZoneControl.

(** ** The two-zone sketch in binary32 *)

Lemma SFsame_eq (x y : spec_float) : SFsame x y = true -> x = y.
Proof.
  destruct x as [a| | |a m e], y as [b| | |b m' e']; simpl; try discriminate.
  - intros H. apply eqb_prop in H. now subst.
  - intros H. apply andb_true_iff in H as [H He].
    apply andb_true_iff in H as [Hs Hm].
    apply eqb_prop in Hs. apply Pos.eqb_eq in Hm. apply Z.eqb_eq in He.
    now subst.
Qed.

(** The order of binary32 on zeros and positive values. *)
Lemma SFltb_trans_plus (x y z : spec_float) :
  is_plus x = true -> is_plus y = true -> is_plus z = true ->
  SFltb x y = true -> SFltb y z = true -> SFltb x z = true.
Proof.
  destruct x as [a| | |[|] m1 e1], y as [b| | |[|] m2 e2],
           z as [c| | |[|] m3 e3]; simpl; try discriminate; try reflexivity.
  intros _ _ _. unfold SFltb, SFcompare.
  change (Pos.compare_cont Eq m1 m2) with (m1 ?= m2)%positive.
  change (Pos.compare_cont Eq m2 m3) with (m2 ?= m3)%positive.
  change (Pos.compare_cont Eq m1 m3) with (m1 ?= m3)%positive.
  destruct (Z.compare_spec e1 e2), (Z.compare_spec e2 e3),
    (Z.compare_spec e1 e3); try discriminate; try reflexivity; try lia.
  destruct (Pos.compare_spec m1 m2), (Pos.compare_spec m2 m3),
    (Pos.compare_spec m1 m3); try discriminate; try reflexivity; lia.
Qed.

Lemma SFleb_plus (x y : spec_float) :
  is_plus x = true -> is_plus y = true ->
  SFleb x y = negb (SFltb y x).
Proof.
  destruct x as [a| | |[|] m1 e1], y as [b| | |[|] m2 e2]; simpl;
    try discriminate; try reflexivity.
  intros _ _. unfold SFleb, SFltb, SFcompare.
  change (Pos.compare_cont Eq m1 m2) with (m1 ?= m2)%positive.
  change (Pos.compare_cont Eq m2 m1) with (m2 ?= m1)%positive.
  destruct (Z.compare_spec e1 e2), (Z.compare_spec e2 e1);
    try reflexivity; try lia.
  destruct (Pos.compare_spec m1 m2), (Pos.compare_spec m2 m1);
    try reflexivity; lia.
Qed.

Lemma counts_round_trip : forallb count_round_trip counts = true.
Proof. vm_compute. reflexivity. Qed.

Lemma count_facts (c : Z) :
  0 <= c <= 1023 ->
  let x := binary_normalize prec32 emax32 c 0 false in
  let u := SFdiv prec32 emax32 x (binary_normalize prec32 emax32 1023 0 false) in
  is_plus x = true
  /\ SFltb x (binary_normalize prec32 emax32 (c + 1) 0 false) = true
  /\ SFtrunc x = c
  /\ clamp01 u = u
  /\ SFeqb u (S754_zero false) = (c =? 0)
  /\ SFmul prec32 emax32 u (binary_normalize prec32 emax32 1023 0 false) = x.
Proof.
  intros Hc x u. pose proof counts_round_trip as H.
  rewrite forallb_forall in H. specialize (H c).
  assert (Hin : In c counts).
  { unfold counts. apply in_map_iff. exists (Z.to_nat c).
    split; [lia | apply in_seq; lia]. }
  specialize (H Hin). unfold count_round_trip in H. cbv zeta in H.
  fold x in H. fold u in H.
  repeat (apply andb_true_iff in H as [H ?]).
  repeat split; try assumption.
  - now apply Z.eqb_eq.
  - now apply SFsame_eq.
  - now apply eqb_prop.
  - now apply SFsame_eq.
Qed.

(** [(float)a <= (float)b] is [a <= b] on the counts of the converter. *)
Lemma counts_lt (k : nat) (a : Z) :
  0 <= a -> a + Z.of_nat (Datatypes.S k) <= 1024 ->
  SFltb (binary_normalize prec32 emax32 a 0 false)
        (binary_normalize prec32 emax32 (a + Z.of_nat (Datatypes.S k)) 0 false)
  = true.
Proof.
  intros Ha. induction k as [|k IH]; intros Hb.
  - destruct (count_facts a ltac:(lia)) as (_ & H & _). exact H.
  - replace (a + Z.of_nat (Datatypes.S (Datatypes.S k)))
      with (a + Z.of_nat (Datatypes.S k) + 1) by lia.
    destruct (count_facts a ltac:(lia)) as (Pa & _).
    destruct (count_facts (a + Z.of_nat (Datatypes.S k)) ltac:(lia))
      as (Pb & Hs & _).
    assert (Pc : is_plus (binary_normalize prec32 emax32
                            (a + Z.of_nat (Datatypes.S k) + 1) 0 false) = true).
    { destruct (Z.eq_dec (a + Z.of_nat (Datatypes.S k) + 1) 1024) as [->|Ne].
      - reflexivity.
      - now destruct (count_facts (a + Z.of_nat (Datatypes.S k) + 1)
                        ltac:(lia)). }
    exact (SFltb_trans_plus _ _ _ Pa Pb Pc (IH ltac:(lia)) Hs).
Qed.

Lemma counts_leb (a b : Z) :
  0 <= a <= 1023 -> 0 <= b <= 1023 ->
  SFleb (binary_normalize prec32 emax32 a 0 false)
        (binary_normalize prec32 emax32 b 0 false) = (a <=? b).
Proof.
  intros Ha Hb.
  destruct (count_facts a Ha) as (Pa & _).
  destruct (count_facts b Hb) as (Pb & _).
  rewrite (SFleb_plus _ _ Pa Pb).
  destruct (Z.leb_spec a b) as [Hle|Hlt].
  - destruct (Z.eq_dec a b) as [->|Ne].
    + destruct (binary_normalize prec32 emax32 b 0 false)
        as [?| | |[|] m e]; try discriminate; try reflexivity.
      unfold SFltb, SFcompare. rewrite Z.compare_refl.
      change (Pos.compare_cont Eq m m) with (m ?= m)%positive.
      now rewrite Pos.compare_refl.
    + pose proof (counts_lt (Z.to_nat (b - a - 1)) a ltac:(lia)) as H.
      replace (a + Z.of_nat (Datatypes.S (Z.to_nat (b - a - 1)))) with b in H
        by lia.
      specialize (H ltac:(lia)).
      pose proof (SFleb_plus _ _ Pa Pb) as L.
      assert (Q : SFleb (binary_normalize prec32 emax32 a 0 false)
                        (binary_normalize prec32 emax32 b 0 false) = true).
      { unfold SFleb. unfold SFltb in H.
        destruct (SFcompare _ _) as [[| |]|]; try discriminate; reflexivity. }
      rewrite Q in L. now rewrite <- L.
  - pose proof (counts_lt (Z.to_nat (a - b - 1)) b ltac:(lia)) as H.
    replace (b + Z.of_nat (Datatypes.S (Z.to_nat (a - b - 1)))) with a in H
      by lia.
    now rewrite (H ltac:(lia)).
Qed.

Section TwoZoneBinary32.

Variable libm_log : spec_float -> spec_float.

Context {S A : Type}.
Context `{ST : AccelStepper spec_float S} `{RA : RunningAverage spec_float A}.
Variable cfg : Config spec_float.

Lemma two_zone_normalizeADC_binary32 (raw : Z) :
  ANALOG_REVERSED cfg = false -> 0 <= raw <= 1023 ->
  let u := SFdiv prec32 emax32 (binary_normalize prec32 emax32 raw 0 false)
             (binary_normalize prec32 emax32 1023 0 false) in
  @TwoZone.normalizeADC _ (binary32 libm_log) cfg raw = u
  /\ @normalizeADC _ (binary32 libm_log) (two_zone cfg) raw = u.
Proof.
  intros Hrev Hraw u.
  destruct (count_facts raw Hraw) as (_ & _ & _ & Hc & _). fold u in Hc.
  split.
  - unfold TwoZone.normalizeADC, TwoZone.ANALOG_MAX. cbv zeta. rewrite Hrev.
    exact Hc.
  - unfold normalizeADC. cbv zeta.
    cbn [ANALOG_MIN_COUNTS ANALOG_MAX_COUNTS ANALOG_REVERSED two_zone].
    rewrite Hrev.
    destruct (Z.ltb_spec raw 0) as [?|_]; [lia|].
    destruct (Z.ltb_spec 1023 raw) as [?|_]; [lia|].
    rewrite Z.sub_0_r, (int16_small raw) by lia.
    exact Hc.
Qed.

Lemma two_zone_stop_test_binary32 (raw : Z) :
  ANALOG_REVERSED cfg = false ->
  0 <= ANALOG_DEADBAND_COUNTS cfg <= 1023 -> 0 <= raw <= 1023 ->
  let u := @TwoZone.normalizeADC _ (binary32 libm_log) cfg raw in
  @feq _ binary32_tests
    (@TwoZone.applyDeadband _ (binary32 libm_log) binary32_tests cfg u)
    (@of_int _ (binary32 libm_log) 0)
  = (raw <=? ANALOG_DEADBAND_COUNTS cfg)
  /\ (ANALOG_DEADBAND_COUNTS cfg < raw ->
      @TwoZone.applyDeadband _ (binary32 libm_log) binary32_tests cfg u = u)
  /\ @scaledADC _ (binary32 libm_log) u = raw.
Proof.
  intros Hrev Hd Hraw u.
  destruct (two_zone_normalizeADC_binary32 raw Hrev Hraw) as [En _].
  cbv zeta in En. subst u. rewrite En.
  destruct (count_facts raw Hraw) as (_ & _ & Ht & _ & Hz & Hm).
  cbv zeta in Hz, Hm.
  unfold TwoZone.applyDeadband, TwoZone.ANALOG_MAX, scaledADC.
  change (@fmul _ (binary32 libm_log)) with (SFmul prec32 emax32).
  change (@fle _ binary32_tests) with SFleb.
  change (@feq _ binary32_tests) with SFeqb.
  change (@of_int _ (binary32 libm_log)) with
    (fun z => binary_normalize prec32 emax32 z 0 false).
  cbv beta. rewrite Hm, (counts_leb raw _ Hraw Hd).
  change (@to_int _ (binary32 libm_log)) with (fun x => int16 (SFtrunc x)).
  cbv beta. rewrite Ht.
  split; [|split; [|apply int16_small; lia]].
  - destruct (Z.leb_spec raw (ANALOG_DEADBAND_COUNTS cfg)) as [Hle|Hlt].
    + reflexivity.
    + change (binary_normalize prec32 emax32 0 0 false) with (S754_zero false).
      rewrite Hz. apply Z.eqb_neq. lia.
  - intros Hlt. destruct (Z.leb_spec raw (ANALOG_DEADBAND_COUNTS cfg)); [lia|].
    reflexivity.
Qed.

(** X21. In binary32 the [u == 0.0] test of the two-zone sketch is exact
    for a pedal that is not reversed: for a sample and a deadband within
    the counts 0..1023 of the converter, the deadbanded value is 0.0
    exactly when the sample is at or below [ANALOG_DEADBAND_COUNTS];
    dividing by 1023 and multiplying by 1023 again loses nothing. *)
Theorem two_zone_stop_in_counts_binary32 (raw : Z) :
  ANALOG_REVERSED cfg = false ->
  0 <= ANALOG_DEADBAND_COUNTS cfg <= 1023 -> 0 <= raw <= 1023 ->
  @feq _ binary32_tests
    (@TwoZone.applyDeadband _ (binary32 libm_log) binary32_tests cfg
       (@TwoZone.normalizeADC _ (binary32 libm_log) cfg raw))
    (@of_int _ (binary32 libm_log) 0)
  = (raw <=? ANALOG_DEADBAND_COUNTS cfg).
Proof.
  intros Hrev Hd Hraw.
  now destruct (two_zone_stop_test_binary32 raw Hrev Hd Hraw).
Qed.

(** X22. The three-zone sketch contains the two-zone sketch in binary32
    as well, bit for bit: with a pedal that is not reversed, a deadband
    within 0..1023 and a filtered sample within 0..1023, an iteration of
    the two-zone sketch gives the state that the three-zone sketch,
    configured with calibration counts 0 and 1023 and no hold band above
    the deadband, gives from the same state and sample. *)
Theorem two_zone_is_a_special_case_binary32
    (s : State spec_float S A) (i : Input) :
  ANALOG_REVERSED cfg = false ->
  0 <= ANALOG_DEADBAND_COUNTS cfg <= 1023 ->
  0 <= filteredADC (FL := binary32 libm_log) s i <= 1023 ->
  TwoZone.loop (FL := binary32 libm_log) (FT := binary32_tests) cfg s i
  = loop (FL := binary32 libm_log) (two_zone cfg) s i.
Proof.
  intros Hrev Hd Hf. destruct (armed s) eqn:E.
  - destruct (due cfg s i) eqn:D.
    + rewrite (two_zone_loop_tick (FL := binary32 libm_log)
                 (FT := binary32_tests) cfg s i E D).
      cbv zeta. unfold TwoZone.deadbanded.
      destruct (two_zone_stop_test_binary32 _ Hrev Hd Hf) as (Q & U & Hs).
      cbv zeta in Q, U, Hs. rewrite Q.
      destruct (two_zone_normalizeADC_binary32 _ Hrev Hf) as [En En'].
      cbv zeta in En, En'.
      assert (Z : zone (FL := binary32 libm_log) (two_zone cfg) s i
                  = if filteredADC (FL := binary32 libm_log) s i
                       <=? ANALOG_DEADBAND_COUNTS cfg
                    then STOP else THROTTLE).
      { unfold zone, pedal. rewrite En', <- En, Hs. unfold classify.
        cbn [ANALOG_DEADBAND_COUNTS HOLD_BAND_COUNTS two_zone].
        destruct (_ <=? _); reflexivity. }
      destruct (Z.leb_spec (filteredADC (FL := binary32 libm_log) s i)
                  (ANALOG_DEADBAND_COUNTS cfg)) as [Hle|Hlt].
      * rewrite (loop_stop (FL := binary32 libm_log) (two_zone cfg)
                   s i E D Z). reflexivity.
      * rewrite (loop_throttle (FL := binary32 libm_log) (two_zone cfg)
                   s i E D Z). cbv zeta.
        rewrite (U Hlt). unfold pedal. rewrite En', <- En. reflexivity.
    + rewrite (two_zone_loop_idle (FL := binary32 libm_log)
                 (FT := binary32_tests) cfg s i E D).
      rewrite (loop_idle (FL := binary32 libm_log) cfg s i E D).
      now rewrite (loop_idle (FL := binary32 libm_log) (two_zone cfg)
                     s i E D).
  - rewrite (two_zone_loop_unarmed (FL := binary32 libm_log)
               (FT := binary32_tests) cfg s i E).
    now rewrite !(loop_unarmed (FL := binary32 libm_log)) by exact E.
Qed.

End TwoZoneBinary32.

(** ** binary32: integers that are computed exactly *)



















(** ** binary32: the velocity integration *)

Section Binary32Throttle.

Variable libm_log : spec_float -> spec_float.

Context {S A : Type}.
Context `{ST : AccelStepper spec_float S} `{RA : RunningAverage spec_float A}.
Variable cfg : Config spec_float.




End Binary32Throttle.

(** ** binary32: the logarithmic curve with a tiny [LOG_CURVE_K] *)

Section Binary32Curve.

Variable libm_log : spec_float -> spec_float.
Variable cfg : Config spec_float.

(** C5. In binary32 the logarithmic curve does not map into [[0, 1]] for
    every [k > 0]: when [k] is so small that [1.0 + k] rounds to 1.0, the
    divisor [log(1.0 + k)] is [log(1.0)], a zero, and [applyCurve(u)] is a
    NaN or an infinity for every [u]; it is a NaN wherever [1.0 + k * u]
    rounds to 1.0 as well, as it does at 0.0 and at 1.0. *)
Theorem applyCurve_log_degenerate (u : spec_float) :
  INPUT_CURVE cfg = 2 ->
  SFadd prec32 emax32 (S754_finite false 8388608 (-23)) (LOG_CURVE_K cfg)
  = S754_finite false 8388608 (-23) ->
  is_zero (libm_log (S754_finite false 8388608 (-23))) = true ->
  is_number (applyCurve (FL := binary32 libm_log) cfg u) = false
  /\ (SFadd prec32 emax32 (S754_finite false 8388608 (-23))
        (SFmul prec32 emax32 (LOG_CURVE_K cfg) u)
      = S754_finite false 8388608 (-23) ->
      applyCurve (FL := binary32 libm_log) cfg u = S754_nan).
Proof.
  intros Hc Hk Hl. unfold applyCurve. rewrite Hc. cbn [Z.eqb Pos.eqb].
  cbv zeta.
  change (@fdiv _ (binary32 libm_log)) with (SFdiv prec32 emax32).
  change (@flog _ (binary32 libm_log)) with libm_log.
  change (@fadd _ (binary32 libm_log)) with (SFadd prec32 emax32).
  change (@fmul _ (binary32 libm_log)) with (SFmul prec32 emax32).
  change (@of_int _ (binary32 libm_log) 1) with (S754_finite false 8388608 (-23)).
  rewrite Hk.
  destruct (libm_log (S754_finite false 8388608 (-23))) as [sz| | |] eqn:L1;
    try discriminate.
  split.
  - destruct (libm_log (SFadd prec32 emax32 _
                          (SFmul prec32 emax32 (LOG_CURVE_K cfg) u)))
      as [s|s| |s m e]; reflexivity.
  - intros ->. rewrite L1. reflexivity.
Qed.

End Binary32Curve.

(** ** The pins the sketch writes itself *)

Section OwnWrites.

Context {F S A : Type}.
Context `{FL : CFloat F} `{ST : AccelStepper F S} `{RA : RunningAverage F A}.
Variable cfg : Config F.

Abbreviation State := (State F S A).

Lemma led_only_writes (x y : State) :
  led_only x y ->
  exists w, writes y = w ++ writes x /\ Forall enable_or_led w.
Proof.
  intros (_ & _ & _ & _ & _ & _ & _ & [E | [v E]]).
  - exists []. split; [exact E | constructor].
  - exists [(LED_PIN, v)]. split; [exact E|].
    constructor; [now right | constructor].
Qed.

(** Every [digitalWrite] of an iteration goes to the ENABLE pin or to the
    LED pin. *)
Lemma loop_writes (s : State) (i : Input) :
  exists w, writes (loop cfg s i) = w ++ writes s /\ Forall enable_or_led w.
Proof.
  assert (K : forall (x : State) now r h d w0,
             writes x = w0 ++ writes s -> Forall enable_or_led w0 ->
             exists w, writes (updateLED now r h d x) = w ++ writes s
                       /\ Forall enable_or_led w).
  { intros x now r h d w0 Ex Fx.
    destruct (led_only_writes _ _ (updateLED_led_only now r h d x))
      as (w1 & E1 & F1).
    exists (w1 ++ w0). split; [now rewrite E1, Ex, app_assoc|].
    apply Forall_app. now split. }
  assert (En : forall v, Forall enable_or_led [(ENABLE_PIN, v)])
    by (intros v; constructor; [now left | constructor]).
  destruct (armed s) eqn:E.
  - destruct (due cfg s i) eqn:D.
    + destruct (zone cfg s i) eqn:Z.
      * rewrite (loop_stop cfg s i E D Z). cbv zeta.
        destruct (disableStart s =? 0);
          [apply (K _ _ _ _ _ []); [reflexivity | constructor]|].
        destruct (_ <=? _).
        -- apply (K _ _ _ _ _ [(ENABLE_PIN, HIGH)]); [reflexivity | apply En].
        -- apply (K _ _ _ _ _ []); [reflexivity | constructor].
      * rewrite (loop_hold cfg s i E D Z). cbv zeta.
        apply (K _ _ _ _ _ [(ENABLE_PIN, LOW)]); [reflexivity | apply En].
      * rewrite (loop_throttle cfg s i E D Z). cbv zeta.
        apply (K _ _ _ _ _ [(ENABLE_PIN, LOW)]); [reflexivity | apply En].
    + rewrite (loop_idle cfg s i E D). exists [(LED_PIN, LOW)].
      split; [reflexivity|]. constructor; [now right | constructor].
  - rewrite (loop_unarmed cfg s i E). unfold arming. cbv zeta.
    apply (K _ _ _ _ _ [(ENABLE_PIN, HIGH)]); [|apply En].
    cbn [writes digitalWrite set_stepper].
    destruct (analogRead i <=? _);
      [destruct (armStart _ =? 0); [|destruct (_ <=? _)]|]; reflexivity.
Qed.

(** X1. Of the [digitalWrite] calls the sketch itself makes, the one to the
    DIR pin is the one of [setup] (high for a reversed direction, low
    otherwise) and none goes to the STEP pin: in every state the sketch can
    reach, the history of its writes is the two writes of [setup] followed
    by writes to the ENABLE pin and the LED pin only.  (The STEP and DIR
    pins are also driven by the AccelStepper object, from inside
    [stepper.run()]; those writes are the library's and are not part of
    this history.) *)
Theorem direction_set_once (s : State) :
  reachable cfg s ->
  exists w,
    writes s = w ++ [(ENABLE_PIN, HIGH);
                     (DIR_PIN, if REVERSE_DIRECTION cfg then HIGH else LOW)]
    /\ Forall enable_or_led w.
Proof.
  induction 1 as [m a l|s i R (w & Ew & Fw)].
  - exists []. split; [reflexivity | constructor].
  - destruct (loop_writes s i) as (w1 & E1 & F1).
    exists (w1 ++ w). split; [now rewrite E1, Ew, app_assoc|].
    apply Forall_app. now split.
Qed.

End OwnWrites.

(** ** binary32: the reading with the shipped calibration counts *)

Lemma SFleb_trans_plus (x y z : spec_float) :
  is_plus x = true -> is_plus y = true -> is_plus z = true ->
  SFleb x y = true -> SFleb y z = true -> SFleb x z = true.
Proof.
  destruct x as [a| | |[|] m1 e1], y as [b| | |[|] m2 e2],
           z as [c| | |[|] m3 e3]; simpl; try discriminate; try reflexivity.
  intros _ _ _. unfold SFleb, SFcompare.
  change (Pos.compare_cont Eq m1 m2) with (m1 ?= m2)%positive.
  change (Pos.compare_cont Eq m2 m3) with (m2 ?= m3)%positive.
  change (Pos.compare_cont Eq m1 m3) with (m1 ?= m3)%positive.
  destruct (Z.compare_spec e1 e2), (Z.compare_spec e2 e3),
    (Z.compare_spec e1 e3); try discriminate; try reflexivity; try lia.
  destruct (Pos.compare_spec m1 m2), (Pos.compare_spec m2 m3),
    (Pos.compare_spec m1 m3); try discriminate; try reflexivity; lia.
Qed.

Lemma SFleb_refl_plus (x : spec_float) :
  is_plus x = true -> SFleb x x = true.
Proof.
  destruct x as [a| | |[|] m e]; simpl; try discriminate; try reflexivity.
  intros _. unfold SFleb, SFcompare. rewrite Z.compare_refl.
  change (Pos.compare_cont Eq m m) with (m ?= m)%positive.
  now rewrite Pos.compare_refl.
Qed.

Lemma shipped_counts_quotient (b : bool) :
  forallb (shipped_quotient b) shipped_counts = true.
Proof. destruct b; vm_compute; reflexivity. Qed.

Lemma shipped_counts_ascent (b : bool) :
  forallb (shipped_ascent b) shipped_counts = true.
Proof. destruct b; vm_compute; reflexivity. Qed.

Lemma in_shipped_counts (c : Z) : 10 <= c <= 1010 -> In c shipped_counts.
Proof.
  intros Hc. unfold shipped_counts. apply in_map_iff.
  exists (Z.to_nat (c - 10)). split; [lia | apply in_seq; lia].
Qed.

(** The readings of the shipped calibration, rest to full, in order. *)
Lemma shipped_ascent_chain (b : bool) (k : nat) (c : Z) :
  10 <= c -> c + Z.of_nat k <= 1010 ->
  let u := @normalizeADC _ (binary32 (fun x => x))
             (pedal_reversed b (@default_config _ (binary32 (fun x => x)))) in
  is_plus (u c) = true /\ is_plus (u (c + Z.of_nat k)) = true
  /\ (if b then SFleb (u (c + Z.of_nat k)) (u c)
      else SFleb (u c) (u (c + Z.of_nat k))) = true.
Proof.
  intros Hc. induction k as [|k IH]; intros Hk u.
  - pose proof (shipped_counts_ascent b) as H.
    rewrite forallb_forall in H.
    specialize (H c (in_shipped_counts c ltac:(lia))).
    unfold shipped_ascent in H. cbv zeta in H. fold u in H.
    apply andb_true_iff in H as [P _].
    rewrite Z.add_0_r. split; [exact P|]. split; [exact P|].
    destruct b; now apply SFleb_refl_plus.
  - destruct (IH ltac:(lia)) as (P0 & P1 & L). fold u in P0, P1, L.
    pose proof (shipped_counts_ascent b) as H.
    rewrite forallb_forall in H.
    pose proof (H _ (in_shipped_counts (c + Z.of_nat k) ltac:(lia))) as H1.
    pose proof (H _ (in_shipped_counts (c + Z.of_nat k + 1) ltac:(lia)))
      as H2.
    unfold shipped_ascent in H1, H2. cbv zeta in H1, H2. fold u in H1, H2.
    apply andb_true_iff in H1 as [_ S1]. apply andb_true_iff in H2 as [P2 _].
    apply orb_true_iff in S1 as [S1|S1]; [apply Z.eqb_eq in S1; lia|].
    replace (c + Z.of_nat (Datatypes.S k)) with (c + Z.of_nat k + 1) by lia.
    split; [exact P0|]. split; [exact P2|].
    destruct b.
    + exact (SFleb_trans_plus _ _ _ P2 P1 P0 S1 L).
    + exact (SFleb_trans_plus _ _ _ P0 P1 P2 L S1).
Qed.

Section Binary32Shipped.

Variable libm_log : spec_float -> spec_float.
Variable cfg : Config spec_float.

(** X10. With the shipped calibration counts the reading is, in binary32,
    the rounded quotient [(c - 10) / 1000.0] of the clamped sample [c], or
    1.0 minus that quotient, rounded, for a reversed pedal: the two float
    clamps that end [normalizeADC] change nothing. *)
Theorem normalizeADC_is_linear (raw : Z) :
  ANALOG_MIN_COUNTS cfg = 10 -> ANALOG_MAX_COUNTS cfg = 1010 ->
  @normalizeADC _ (binary32 libm_log) cfg raw
  = if ANALOG_REVERSED cfg
    then SFsub prec32 emax32 (S754_finite false 8388608 (-23))
           (SFdiv prec32 emax32
              (binary_normalize prec32 emax32
                 (Z.max 10 (Z.min raw 1010) - 10) 0 false)
              (binary_normalize prec32 emax32 1000 0 false))
    else SFdiv prec32 emax32
           (binary_normalize prec32 emax32
              (Z.max 10 (Z.min raw 1010) - 10) 0 false)
           (binary_normalize prec32 emax32 1000 0 false).
Proof.
  intros Hlo Hhi.
  rewrite (normalizeADC_clamped (FL := binary32 libm_log) cfg raw)
    by (rewrite Hlo, Hhi; lia).
  rewrite Hlo, Hhi. set (c := Z.max 10 (Z.min raw 1010)).
  rewrite (normalizeADC_binary32_settings libm_log cfg 10 1010 c Hlo Hhi).
  pose proof (shipped_counts_quotient (ANALOG_REVERSED cfg)) as H.
  rewrite forallb_forall in H.
  specialize (H c (in_shipped_counts c ltac:(subst c; lia))).
  apply SFsame_eq in H. rewrite <- H. reflexivity.
Qed.

(** X11. With the shipped calibration counts the reading follows the pedal
    in binary32: a larger raw sample never reads smaller, and for a
    reversed pedal never larger. *)
Theorem normalizeADC_monotone (raw1 raw2 : Z) :
  ANALOG_MIN_COUNTS cfg = 10 -> ANALOG_MAX_COUNTS cfg = 1010 ->
  raw1 <= raw2 ->
  (if ANALOG_REVERSED cfg
   then SFleb (@normalizeADC _ (binary32 libm_log) cfg raw2)
              (@normalizeADC _ (binary32 libm_log) cfg raw1)
   else SFleb (@normalizeADC _ (binary32 libm_log) cfg raw1)
              (@normalizeADC _ (binary32 libm_log) cfg raw2)) = true.
Proof.
  intros Hlo Hhi Hle.
  rewrite (normalizeADC_clamped (FL := binary32 libm_log) cfg raw1),
    (normalizeADC_clamped (FL := binary32 libm_log) cfg raw2)
    by (rewrite Hlo, Hhi; lia).
  rewrite Hlo, Hhi.
  set (c1 := Z.max 10 (Z.min raw1 1010)). set (c2 := Z.max 10 (Z.min raw2 1010)).
  rewrite !(normalizeADC_binary32_settings libm_log cfg 10 1010 _ Hlo Hhi).
  destruct (shipped_ascent_chain (ANALOG_REVERSED cfg) (Z.to_nat (c2 - c1)) c1)
    as (_ & _ & L); [subst c1; lia | subst c1 c2; lia|].
  replace (c1 + Z.of_nat (Z.to_nat (c2 - c1))) with c2 in L
    by (subst c1 c2; lia).
  exact L.
Qed.

End Binary32Shipped.

(** ** The further theorems at work on the bench *)

(** Right after arming at rest, a raw sample of 400 counts averages to 50
    over the window of eight, which the bench reads as 0.04 and rescales to
    40 counts: HOLD. *)
Lemma bench_hold_tick :
  due bench armed_at_rest (pressed 400 810) = true
  /\ zone bench armed_at_rest (pressed 400 810) = HOLD.
Proof.
  destruct armed_at_rest_facts as (_ & _ & _ & _ & _ & _ & Ef).
  split; [reflexivity|].
  unfold zone, pedal, filteredADC. rewrite Ef.
  assert (Ea : getAverage (addValue (of_int (analogRead (pressed 400 810)))
                 {| size := 8; samples := repeat (IZR 0) 8 |}) = IZR 50).
  { simpl. lra. }
  rewrite Ea. simpl to_int. rewrite Rtrunc_IZR.
  assert (En : normalizeADC bench (int16 50) = (IZR 40 / IZR 1000)%R).
  { exact (proj2 (normalizeADC_exact_linear bench 50 eq_refl eq_refl)). }
  rewrite En. unfold scaledADC. simpl to_int.
  rewrite (Rtrunc_between _ 40); [reflexivity | lra | lia].
Qed.

Lemma unarmed_is_idle_witness :
  let s := loop bench power_up (floored 300) in
  reachable bench s /\ armed s = false
  /\ enablePin s = HIGH /\ disableStart s = 0 /\ lastControlUpdate s = 0
  /\ virtualPos s = 0%R /\ ledPin s = level_of_bool (ledState s).
Proof.
  intros s.
  assert (R : reachable bench s) by (apply reachable_loop, reachable_setup).
  assert (E : armed s = false) by reflexivity.
  split; [exact R|]. split; [exact E|].
  exact (unarmed_is_idle bench s R E).
Defined.

Lemma first_armed_iteration_witness :
  let s := loop bench power_up (rest 300) in
  reachable bench s /\ armed s = false
  /\ armed (loop bench s (rest 800)) = true
  /\ controlInterval bench <= ulong (millis (rest 810))
  /\ due bench (loop bench s (rest 800)) (rest 810) = true
  /\ enablePin (loop bench s (rest 800)) = HIGH
  /\ disableStart (loop bench s (rest 800)) = 0
  /\ stepper (loop bench s (rest 800)) = stop (F := R) (stepper s).
Proof.
  intros s.
  assert (R : reachable bench s) by (apply reachable_loop, reachable_setup).
  assert (E : armed s = false) by reflexivity.
  assert (E' : armed (loop bench s (rest 800)) = true) by reflexivity.
  assert (Hj : controlInterval bench <= ulong (millis (rest 810)))
    by (apply Z.leb_le; reflexivity).
  split; [exact R|]. split; [exact E|]. split; [exact E'|]. split; [exact Hj|].
  exact (first_armed_iteration bench s (rest 800) (rest 810) R E E' Hj).
Defined.

Lemma hold_tick_locks_witness :
  let s' := loop bench armed_at_rest (pressed 400 810) in
  armed armed_at_rest = true
  /\ due bench armed_at_rest (pressed 400 810) = true
  /\ zone bench armed_at_rest (pressed 400 810) = HOLD
  /\ enablePin s' = LOW
  /\ stepper s'
     = run (F := R)
         (moveTo (F := R) (currentPosition (F := R) (stepper armed_at_rest))
            (stepper armed_at_rest))
  /\ disableStart s' = 0
  /\ virtualPos s' = virtualPos armed_at_rest
  /\ lastControlUpdate s' = millis (pressed 400 810).
Proof.
  intros s'.
  destruct armed_at_rest_facts as (_ & E & _).
  destruct bench_hold_tick as [D Z].
  split; [exact E|]. split; [exact D|]. split; [exact Z|].
  exact (hold_tick_locks bench armed_at_rest (pressed 400 810) E D Z).
Defined.

Lemma accumulator_only_moves_in_throttle_witness :
  along bench (fun u i => ~ throttle_tick bench u i) armed_at_rest
    [rest 810; rest 815]
  /\ virtualPos (iterate bench armed_at_rest [rest 810; rest 815])
     = virtualPos armed_at_rest.
Proof.
  pose proof first_tick_at_rest as T. cbv zeta in T.
  destruct T as (_ & Z & _ & _ & Ht & _).
  assert (L : along bench (fun u i => ~ throttle_tick bench u i) armed_at_rest
                [rest 810; rest 815]).
  { split; [|split; [|exact Logic.I]].
    - intros (_ & _ & Z'). rewrite Z in Z'. discriminate.
    - intros (_ & D & _). unfold due in D. rewrite Ht in D. discriminate. }
  split; [exact L|].
  exact (accumulator_only_moves_in_throttle bench armed_at_rest
           [rest 810; rest 815] L).
Defined.

Lemma zero_stamp_is_unset_witness :
  millis (rest 0) = 0
  /\ armed (loop bench power_up (rest 0)) = false
  /\ armStart (loop bench power_up (rest 0)) = 0.
Proof.
  assert (Hm : millis (rest 0) = 0) by reflexivity.
  split; [exact Hm|].
  destruct (zero_stamp_is_unset bench power_up (rest 0) Hm) as [K _].
  exact (K eq_refl eq_refl eq_refl).
Defined.

Lemma arm_floor_any_config_witness :
  let cfg := arm_delay 100 bench in
  let l := [rest 300; rest 560] in
  armed (power_up_with 100) = false /\ armStart (power_up_with 100) = 0
  /\ Forall (fun i => millis i <> 0) l
  /\ 250 <= armHold cfg < 32768
  /\ armed (iterate cfg (power_up_with 100) l) = true
  /\ held_released cfg 250 l.
Proof.
  intros cfg l.
  assert (Hm : Forall (fun i => millis i <> 0) l)
    by (repeat constructor; discriminate).
  destruct (arm_floor_any_config cfg (power_up_with 100) l eq_refl eq_refl Hm)
    as [Hf Hh].
  split; [reflexivity|]. split; [reflexivity|]. split; [exact Hm|].
  split; [exact Hf|]. split; [reflexivity|]. exact (Hh eq_refl).
Defined.

Lemma arm_delay_wraps_witness :
  let cfg := arm_delay 40000 bench in
  let l := [rest 300; rest 560] in
  32768 <= ARM_DELAY_MS cfg < 65786
  /\ armed (power_up_with 40000) = false /\ armStart (power_up_with 40000) = 0
  /\ Forall (fun i => millis i <> 0) l
  /\ armHold cfg = 250
  /\ armed (iterate cfg (power_up_with 40000) l) = true
  /\ held_released cfg 250 l.
Proof.
  intros cfg l.
  assert (Hr : 32768 <= ARM_DELAY_MS cfg < 65786) by (simpl; lia).
  assert (Hm : Forall (fun i => millis i <> 0) l)
    by (repeat constructor; discriminate).
  destruct (arm_delay_wraps cfg (power_up_with 40000) l Hr eq_refl eq_refl Hm)
    as [Hh Hi].
  assert (Ea : armed (iterate cfg (power_up_with 40000) l) = true)
    by reflexivity.
  split; [exact Hr|]. split; [reflexivity|]. split; [reflexivity|].
  split; [exact Hm|]. split; [exact Hh|]. split; [exact Ea|].
  apply Hi. exact Ea.
Defined.

Lemma calibration_gives_reading_witness :
  0 <= ANALOG_MIN_COUNTS swapped_counts <= 1023
  /\ 0 <= ANALOG_MAX_COUNTS swapped_counts <= 1023
  /\ ANALOG_MIN_COUNTS swapped_counts <> ANALOG_MAX_COUNTS swapped_counts
  /\ @normalizeADC _ (binary32 (fun x => x)) swapped_counts 500 <> S754_nan
  /\ SFleb (S754_zero false)
       (@normalizeADC _ (binary32 (fun x => x)) swapped_counts 500) = true
  /\ SFleb (@normalizeADC _ (binary32 (fun x => x)) swapped_counts 500)
       (S754_finite false 8388608 (-23)) = true.
Proof.
  assert (Hlo : 0 <= ANALOG_MIN_COUNTS swapped_counts <= 1023) by (simpl; lia).
  assert (Hhi : 0 <= ANALOG_MAX_COUNTS swapped_counts <= 1023) by (simpl; lia).
  assert (Hne : ANALOG_MIN_COUNTS swapped_counts
                <> ANALOG_MAX_COUNTS swapped_counts) by discriminate.
  split; [exact Hlo|]. split; [exact Hhi|]. split; [exact Hne|].
  exact (calibration_gives_reading (fun x => x) swapped_counts 500 Hlo Hhi Hne).
Defined.

Lemma inverted_calibration_is_constant_witness :
  0 <= ANALOG_MAX_COUNTS swapped_counts
  /\ ANALOG_MAX_COUNTS swapped_counts < ANALOG_MIN_COUNTS swapped_counts
  /\ ANALOG_MIN_COUNTS swapped_counts <= 1023
  /\ @normalizeADC _ (binary32 (fun x => x)) swapped_counts 0
     = S754_finite false 8388608 (-23)
  /\ @normalizeADC _ (binary32 (fun x => x)) swapped_counts 500
     = S754_finite false 8388608 (-23).
Proof.
  assert (Hlo : 0 <= ANALOG_MAX_COUNTS swapped_counts) by (simpl; lia).
  assert (Hlt : ANALOG_MAX_COUNTS swapped_counts
                < ANALOG_MIN_COUNTS swapped_counts) by reflexivity.
  assert (Hhi : ANALOG_MIN_COUNTS swapped_counts <= 1023) by (simpl; lia).
  split; [exact Hlo|]. split; [exact Hlt|]. split; [exact Hhi|]. split.
  - exact (inverted_calibration_is_constant (fun x => x) swapped_counts 0
             Hlo Hlt Hhi).
  - exact (inverted_calibration_is_constant (fun x => x) swapped_counts 500
             Hlo Hlt Hhi).
Defined.

Lemma timers_survive_rollover_witness :
  let s := loop bench power_up (rest 4294967000) in
  0 <= 500 < 4294967296
  /\ armed s = false /\ armStart s <> 0 /\ released bench (rest 204) = true
  /\ millis (rest 204) = ulong (armStart s + 500)
  /\ armed (loop bench s (rest 204)) = true.
Proof.
  intros s.
  assert (Hd : 0 <= 500 < 4294967296) by lia.
  assert (Hn : armStart s <> 0) by discriminate.
  assert (Hm : millis (rest 204) = ulong (armStart s + 500)) by reflexivity.
  destruct (timers_survive_rollover bench s (rest 204) 500 Hd) as (_ & _ & K).
  split; [exact Hd|]. split; [reflexivity|]. split; [exact Hn|].
  split; [reflexivity|]. split; [exact Hm|].
  exact (K eq_refl Hn eq_refl Hm).
Defined.

Lemma arming_same_in_both_sketches_witness :
  armed power_up = false
  /\ armed (TwoZone.iterate bench power_up [rest 300; rest 800])
     = armed (iterate bench power_up [rest 300; rest 800])
  /\ TwoZone.iterate bench power_up [rest 300]
     = iterate bench power_up [rest 300].
Proof.
  assert (E : armed power_up = false) by reflexivity.
  split; [exact E|]. split.
  - exact (proj1 (arming_same_in_both_sketches bench power_up
                    [rest 300; rest 800] E)).
  - exact (proj2 (arming_same_in_both_sketches bench power_up [rest 300] E)
             eq_refl).
Defined.

Lemma two_zone_tick_witness :
  armed armed_at_rest = true
  /\ due bench armed_at_rest (rest 810) = true
  /\ lastControlUpdate (TwoZone.loop bench armed_at_rest (rest 810))
     = millis (rest 810).
Proof.
  destruct armed_at_rest_facts as (_ & E & _).
  assert (D : due bench armed_at_rest (rest 810) = true) by reflexivity.
  split; [exact E|]. split; [exact D|].
  exact (proj1 (two_zone_tick bench armed_at_rest (rest 810) E D)).
Defined.

Lemma two_zone_stop_in_counts_binary32_witness :
  ANALOG_REVERSED shipped32 = false
  /\ 0 <= ANALOG_DEADBAND_COUNTS shipped32 <= 1023
  /\ 0 <= 21 <= 1023
  /\ @feq _ binary32_tests
       (@TwoZone.applyDeadband _ (binary32 (fun x => x)) binary32_tests
          shipped32
          (@TwoZone.normalizeADC _ (binary32 (fun x => x)) shipped32 21))
       (@of_int _ (binary32 (fun x => x)) 0)
     = false.
Proof.
  assert (Hd : 0 <= ANALOG_DEADBAND_COUNTS shipped32 <= 1023) by (simpl; lia).
  assert (Hr : 0 <= 21 <= 1023) by lia.
  split; [reflexivity|]. split; [exact Hd|]. split; [exact Hr|].
  exact (two_zone_stop_in_counts_binary32 (fun x => x) shipped32 21
           eq_refl Hd Hr).
Defined.

Lemma two_zone_is_a_special_case_binary32_witness :
  ANALOG_REVERSED shipped32 = false
  /\ 0 <= ANALOG_DEADBAND_COUNTS shipped32 <= 1023
  /\ 0 <= filteredADC (FL := binary32 (fun x => x))
            (RA := @window _ (binary32 (fun x => x)))
            armed_at_rest32 (floored 810) <= 1023
  /\ TwoZone.loop (FL := binary32 (fun x => x)) (FT := binary32_tests)
       (RA := @window _ (binary32 (fun x => x)))
       shipped32 armed_at_rest32 (floored 810)
     = loop (FL := binary32 (fun x => x))
         (RA := @window _ (binary32 (fun x => x)))
         (two_zone shipped32) armed_at_rest32 (floored 810).
Proof.
  assert (Hd : 0 <= ANALOG_DEADBAND_COUNTS shipped32 <= 1023) by (simpl; lia).
  assert (Hf : 0 <= filteredADC (FL := binary32 (fun x => x))
                      (RA := @window _ (binary32 (fun x => x)))
                      armed_at_rest32 (floored 810) <= 1023)
    by (vm_compute; split; discriminate).
  split; [reflexivity|]. split; [exact Hd|]. split; [exact Hf|].
  exact (two_zone_is_a_special_case_binary32 (fun x => x) shipped32
           armed_at_rest32 (floored 810) eq_refl Hd Hf).
Defined.

Lemma shipped_calibration_rounds_nowhere_witness :
  ANALOG_MIN_COUNTS (pedal_reversed true shipped32) = 10
  /\ ANALOG_MAX_COUNTS (pedal_reversed true shipped32) = 1010
  /\ @scaledADC _ (binary32 (fun x => x))
       (@normalizeADC _ (binary32 (fun x => x)) shipped32 260) = 255
  /\ @scaledADC _ (binary32 (fun x => x))
       (@normalizeADC _ (binary32 (fun x => x))
          (pedal_reversed true shipped32) 260) = 767.
Proof.
  split; [reflexivity|]. split; [reflexivity|]. split.
  - exact (shipped_calibration_rounds_nowhere (fun x => x) shipped32 260
             eq_refl eq_refl).
  - exact (shipped_calibration_rounds_nowhere (fun x => x)
             (pedal_reversed true shipped32) 260 eq_refl eq_refl).
Defined.

Lemma reversed_full_scale_rounds_down_witness :
  let cfg := pedal_reversed true (calibrated 0 1023 shipped32) in
  ANALOG_MIN_COUNTS cfg = 0 /\ ANALOG_MAX_COUNTS cfg = 1023
  /\ ANALOG_REVERSED cfg = true
  /\ 1023 - Z.max 0 (Z.min 500 1023) - 1
     <= @scaledADC _ (binary32 (fun x => x))
          (@normalizeADC _ (binary32 (fun x => x)) cfg 500)
     <= 1023 - Z.max 0 (Z.min 500 1023)
  /\ @scaledADC _ (binary32 (fun x => x))
       (@normalizeADC _ (binary32 (fun x => x)) cfg 1003) = 19.
Proof.
  intros cfg.
  split; [reflexivity|]. split; [reflexivity|]. split; [reflexivity|].
  exact (reversed_full_scale_rounds_down (fun x => x) cfg 500
           eq_refl eq_refl eq_refl).
Defined.

(** ** The bench in binary32 *)

Lemma pedal_down32_facts :
  reachable (FL := FL32) (RA := RA32) linear32 pedal_down32
  /\ cruise_inv32 0 pedal_down32
  /\ virtualPos pedal_down32 = S754_zero false.
Proof.
  split; [|split].
  - unfold pedal_down32. apply reachable_iterate.
    change power_up32
      with (setup (FL := FL32) (RA := RA32) linear32 motor0
              {| size := 8; samples := [] |} (repeat 0 8)).
    apply reachable_setup.
  - unfold cruise_inv32. repeat split; vm_compute; reflexivity.
  - vm_compute. reflexivity.
Qed.





(** *** The binary32 theorems at work *)


Lemma applyCurve_log_degenerate_witness :
  INPUT_CURVE tiny_k32 = 2
  /\ SFadd prec32 emax32 one32 (LOG_CURVE_K tiny_k32) = one32
  /\ is_zero (log_near_one one32) = true
  /\ applyCurve (FL := binary32 log_near_one) tiny_k32 (S754_zero false)
     = S754_nan
  /\ applyCurve (FL := binary32 log_near_one) tiny_k32 one32 = S754_nan.
Proof.
  split; [reflexivity|]. split; [reflexivity|]. split; [reflexivity|].
  split.
  - apply (applyCurve_log_degenerate log_near_one tiny_k32 (S754_zero false));
      reflexivity.
  - apply (applyCurve_log_degenerate log_near_one tiny_k32 one32);
      reflexivity.
Defined.

Lemma direction_set_once_witness :
  reachable (FL := FL32) (RA := RA32) linear32 pedal_down32
  /\ exists w,
       writes pedal_down32 = w ++ [(ENABLE_PIN, HIGH); (DIR_PIN, LOW)]
       /\ Forall enable_or_led w.
Proof.
  split; [apply pedal_down32_facts|].
  apply (direction_set_once (FL := FL32) (RA := RA32) linear32 pedal_down32).
  apply pedal_down32_facts.
Defined.

Lemma normalizeADC_is_linear_witness :
  ANALOG_MIN_COUNTS shipped32 = 10 /\ ANALOG_MAX_COUNTS shipped32 = 1010
  /\ normalizeADC (FL := FL32) shipped32 510 = S754_finite false 8388608 (-24)
  /\ normalizeADC (FL := FL32) (pedal_reversed true shipped32) 260
     = S754_finite false 12582912 (-24).
Proof.
  split; [reflexivity|]. split; [reflexivity|]. split.
  - rewrite (normalizeADC_is_linear (fun x => x) shipped32 510 eq_refl eq_refl).
    reflexivity.
  - rewrite (normalizeADC_is_linear (fun x => x)
               (pedal_reversed true shipped32) 260 eq_refl eq_refl).
    reflexivity.
Defined.

Lemma normalizeADC_monotone_witness :
  300 <= 700
  /\ SFleb (normalizeADC (FL := FL32) shipped32 300)
           (normalizeADC (FL := FL32) shipped32 700) = true
  /\ SFleb (normalizeADC (FL := FL32) (pedal_reversed true shipped32) 700)
           (normalizeADC (FL := FL32) (pedal_reversed true shipped32) 300)
     = true.
Proof.
  split; [lia|]. split.
  - exact (normalizeADC_monotone (fun x => x) shipped32 300 700
             eq_refl eq_refl ltac:(lia)).
  - exact (normalizeADC_monotone (fun x => x) (pedal_reversed true shipped32)
             300 700 eq_refl eq_refl ltac:(lia)).
Defined.

(** *** Where the sketch departs from the specification, in binary32 *)


(** C10 does not hold as stated.  With the pedal on the floor and the last
    control tick 9 ms back, an armed iteration that finds the pedal
    released is no control tick, and yet it changes the state of the
    controller: the running average goes from 1023.0 to 895.125, and the
    control tick that follows adds 35.4 steps to the accumulator where it
    would have added 40.0. *)
Lemma idle_iteration_feeds_filter :
  let s := pedal_down32 in
  let i := rest 819 in
  let s' := loop32 s i in
  reachable (FL := FL32) (RA := RA32) linear32 s
  /\ armed s = true
  /\ usub (millis i) (lastControlUpdate s) < controlInterval linear32
  /\ getAverage (RunningAverage := RA32) (filter s)
     = binary_normalize prec32 emax32 1023 0 false
  /\ getAverage (RunningAverage := RA32) (filter s')
     = S754_finite false 14665728 (-14)
  /\ filter s' <> filter s
  /\ virtualPos (loop32 s (floored 820)) = S754_finite false 10485760 (-18)
  /\ virtualPos (loop32 s' (floored 820)) = S754_finite false 9279898 (-18).
Proof.
  cbv zeta.
  split; [apply pedal_down32_facts|].
  split; [vm_compute; reflexivity|]. split; [vm_compute; reflexivity|].
  split; [vm_compute; reflexivity|]. split; [vm_compute; reflexivity|].
  split; [|split; vm_compute; reflexivity].
  intros K. apply (f_equal (getAverage (RunningAverage := RA32))) in K.
  vm_compute in K. discriminate K.
Qed.

